(** * web-qr: the card-generation pipeline

    A shallow embedding of the card-generation pipeline of the web-qr
    application: [src/App.tsx] (proxy resolver, favicon acquirer, card
    assembler, image export), [services/gemini] (metadata acquirer) and
    [components/SmartCard] (screenshot fallback state).

    Strings are [String.string]: the bytes of the text in UTF-8, a lone
    surrogate of a JavaScript string written as the three bytes of its
    code point. On a string with a lone surrogate
    ([JsString.hasLoneSurrogate]) the [encodeURIComponent] of the
    browser throws a [URIError]; [JsString.encodeURIComponent] is its
    result on every other string.
    Everything the browser or a remote service decides (the clock, the
    network, the renderer, the URL and JSON parsers) is an oracle of a
    [Platform] record; the repository's own code is embedded as functions
    over it, in a state-and-exception monad whose state is the trace of
    the calls made to the platform. *)

From Stdlib Require Import String Ascii List Bool Arith ZArith NArith QArith Lia.
From Stdlib Require Import Decimal DecimalString DecimalZ.
Import ListNotations.

Close Scope Q_scope.
Local Open Scope list_scope.
Local Open Scope string_scope.
Local Open Scope nat_scope.

(* ===================================================================== *)
(** * JavaScript string primitives used by the sources *)
(* ===================================================================== *)

Module JsString.

(** [s.startsWith(p)] *)
Definition startsWith (s p : string) : bool := String.prefix p s.

(** [s.includes(p)]: [p] occurs somewhere in [s]. *)
Fixpoint includes (s p : string) : bool :=
  String.prefix p s ||
  match s with
  | EmptyString => false
  | String _ s' => includes s' p
  end.

(** The characters of [s] after the first [n]. *)
Fixpoint drop (n : nat) (s : string) : string :=
  match n, s with
  | O, _ => s
  | S _, EmptyString => EmptyString
  | S n', String _ s' => drop n' s'
  end.

(** [s.replace(pat, rep)] with a string pattern: only the first
    occurrence of [pat], wherever it is, is replaced. ([rep] is taken
    literally; the sources only pass the empty string.) *)
Fixpoint replace (s pat rep : string) : string :=
  if String.prefix pat s then rep ++ drop (String.length pat) s
  else match s with
       | EmptyString => EmptyString
       | String c s' => String c (replace s' pat rep)
       end.

(** [s.replace(/pat/g, '')] for a literal pattern: every occurrence,
    scanning left to right, is removed. [skip] counts the characters of
    a match that are still to be dropped. *)
Fixpoint removeAll_from (skip : nat) (pat s : string) : string :=
  match s with
  | EmptyString => EmptyString
  | String c s' =>
      match skip with
      | S k => removeAll_from k pat s'
      | O =>
          if String.prefix pat s
          then match String.length pat with
               | O => String c (removeAll_from 0 pat s')
               | S k => removeAll_from k pat s'
               end
          else String c (removeAll_from 0 pat s')
      end
  end.

Definition removeAll (s pat : string) : string := removeAll_from 0 pat s.

Definition byte (n : nat) : ascii := ascii_of_nat n.

(** White space of one byte: TAB, LF, VT, FF, CR, SP. *)
Definition isAsciiSpace (c : ascii) : bool :=
  let n := nat_of_ascii c in
  ((9 <=? n) && (n <=? 13)) || (n =? 32).

(** The second byte of U+00A0 (after C2). *)
Definition isSpace2 (c1 c2 : ascii) : bool :=
  (nat_of_ascii c1 =? 194) && (nat_of_ascii c2 =? 160).

(** The three-byte white space: U+1680, U+2000..U+200A, U+2028, U+2029,
    U+202F, U+205F, U+3000 and U+FEFF. *)
Definition isSpace3 (c1 c2 c3 : ascii) : bool :=
  let a := nat_of_ascii c1 in
  let b := nat_of_ascii c2 in
  let c := nat_of_ascii c3 in
  ((a =? 225) && (b =? 154) && (c =? 128)) ||
  ((a =? 226) && (b =? 128) &&
     (((128 <=? c) && (c <=? 138)) || (c =? 168) || (c =? 169) || (c =? 175))) ||
  ((a =? 226) && (b =? 129) && (c =? 159)) ||
  ((a =? 227) && (b =? 128) && (c =? 128)) ||
  ((a =? 239) && (b =? 187) && (c =? 191)).

(** [s.trimStart()] on the UTF-8 bytes. *)
Fixpoint trimStart (s : string) : string :=
  match s with
  | EmptyString => EmptyString
  | String c1 r1 =>
      if isAsciiSpace c1 then trimStart r1
      else match r1 with
           | EmptyString => s
           | String c2 r2 =>
               if isSpace2 c1 c2 then trimStart r2
               else match r2 with
                    | EmptyString => s
                    | String c3 r3 =>
                        if isSpace3 c1 c2 c3 then trimStart r3 else s
                    end
           end
  end.

Fixpoint rev (s : string) : string :=
  match s with
  | EmptyString => EmptyString
  | String c s' => rev s' ++ String c EmptyString
  end.

(** [trimStart] on the reversed bytes: the multi-byte white space is
    met last byte first. *)
Fixpoint trimStart_rev (s : string) : string :=
  match s with
  | EmptyString => EmptyString
  | String c1 r1 =>
      if isAsciiSpace c1 then trimStart_rev r1
      else match r1 with
           | EmptyString => s
           | String c2 r2 =>
               if isSpace2 c2 c1 then trimStart_rev r2
               else match r2 with
                    | EmptyString => s
                    | String c3 r3 =>
                        if isSpace3 c3 c2 c1 then trimStart_rev r3 else s
                    end
           end
  end.

(** [s.trim()] *)
Definition trim (s : string) : string :=
  rev (trimStart_rev (rev (trimStart s))).

(** ASCII lower case of one character. *)
Definition lower (c : ascii) : ascii :=
  let n := nat_of_ascii c in
  if (65 <=? n) && (n <=? 90) then ascii_of_nat (n + 32) else c.

(** [p] is a prefix of [s] up to ASCII case ([p] is given in lower case). *)
Fixpoint prefix_ci (p s : string) : bool :=
  match p, s with
  | EmptyString, _ => true
  | String _ _, EmptyString => false
  | String a p', String b s' => Ascii.eqb a (lower b) && prefix_ci p' s'
  end.

(** A string is truthy when it is not empty. *)
Definition truthy (s : string) : bool :=
  match s with EmptyString => false | _ => true end.

(** [`${n}`] for an integer-valued number: its decimal digits. *)
Definition ofZ (z : Z) : string := NilEmpty.string_of_int (Z.to_int z).

Definition hexDigit (n : nat) : ascii :=
  if n <? 10 then ascii_of_nat (48 + n) else ascii_of_nat (55 + n).

(** Characters [encodeURIComponent] leaves alone:
    [A-Z a-z 0-9 - _ . ! ~ * ' ( )]. *)
Definition isUnreserved (c : ascii) : bool :=
  let n := nat_of_ascii c in
  ((65 <=? n) && (n <=? 90)) || ((97 <=? n) && (n <=? 122)) ||
  ((48 <=? n) && (n <=? 57)) ||
  (n =? 45) || (n =? 95) || (n =? 46) || (n =? 33) || (n =? 126) ||
  (n =? 42) || (n =? 39) || (n =? 40) || (n =? 41).

Definition encodeByte (c : ascii) : string :=
  if isUnreserved c then String c EmptyString
  else let n := nat_of_ascii c in
       String "%" (String (hexDigit (n / 16)) (String (hexDigit (n mod 16)) EmptyString)).

(** [encodeURIComponent(s)]: every UTF-8 byte outside the unreserved set
    becomes [%XX]. *)
Fixpoint encodeURIComponent (s : string) : string :=
  match s with
  | EmptyString => EmptyString
  | String c s' => encodeByte c ++ encodeURIComponent s'
  end.

(** A lone surrogate, U+D800 to U+DFFF, in three bytes: [0xED] and then
    a byte from [0xA0] to [0xBF]. In the UTF-8 of a well-formed text
    [0xED] is followed by a byte below [0xA0]. *)
Fixpoint hasLoneSurrogate (s : string) : bool :=
  match s with
  | EmptyString => false
  | String c s' =>
      match s' with
      | EmptyString => false
      | String d _ =>
          ((nat_of_ascii c =? 237) && (160 <=? nat_of_ascii d)
           && (nat_of_ascii d <=? 191))
          || hasLoneSurrogate s'
      end
  end.

End JsString.

(* ===================================================================== *)
(** * Platform: values, events and oracles *)
(* ===================================================================== *)

(** What a [catch] clause can receive: an [Error] instance with its
    message, another object (with what [JSON.stringify] makes of it, or
    [None] when that throws), or a primitive. *)
Inductive Exn : Type :=
| JsError (message : string)
| JsObject (stringified : option string)
| JsPrimitive.

#[local] Set Warnings "-register-all".

(** A parsed JSON text. In an object the fields are in source order. *)
Inductive JSON : Type :=
| JNull
| JBool (b : bool)
| JNumber (literal : string)
| JString (s : string)
| JArray (items : list JSON)
| JObject (fields : list (string * JSON)).

(** A JavaScript value read out of parsed JSON: [None] is [undefined]. *)
Definition JsValue : Type := option JSON.

Record Blob : Type := { blob_size : N; blob_type : string }.

(** A [fetch] response: its [ok] flag and what [response.blob()] settles to. *)
Record Response : Type := { ok : bool; blob : Exn + Blob }.

Inductive Format : Type := png | svg.

(** The options object handed to html-to-image; an absent key is [None],
    [backgroundColor: null] is [Some None]. *)
Record Options : Type := {
  quality : option Q;
  pixelRatio : option Q;
  cacheBust : option bool;
  backgroundColor : option (option string);
  useCORS : option bool;
  preferredFontFormat : option string;
  skipFonts : option bool
}.

(** Calls that leave the program, in the order they are made. *)
Inductive Event : Type :=
| EvDateNow
| EvFetch (url : string)
| EvReadAsDataURL (b : Blob)
| EvGenerateContent (url : string)
| EvQRCode (text : string)
| EvRender (f : Format) (o : Options)
| EvLocaleDate
| EvDownload (filename href : string)
| EvAlert (message : string).

Definition History : Type := list Event.

(** The environment. Each oracle answers from the calls made so far, so a
    service may answer differently each time it is asked. *)
Record Platform : Type := {
  (** [Date.now()], in milliseconds *)
  Date_now : History -> Z;
  (** [fetch(url)]: rejects, or resolves to a response *)
  fetch : History -> string -> Exn + Response;
  (** [reader.result] when [onloadend] fires after [readAsDataURL(blob)];
      [None] is [null] *)
  FileReader_result : History -> Blob -> option string;
  (** [ai.models.generateContent] on the prompt built for [url]; the
      answer is [response.text], [None] when undefined *)
  generateContent : History -> string -> Exn + option string;
  (** [JSON.parse] *)
  JSON_parse : string -> Exn + JSON;
  (** [new URL(s).hostname]; [inl] is the [TypeError] of an invalid URL *)
  URL_hostname : string -> Exn + string;
  (** [QRCode.toDataURL] with the options of the assembler *)
  QRCode_toDataURL : History -> string -> Exn + string;
  (** [htmlToImage.toPng] / [htmlToImage.toSvg] on the card node *)
  htmlToImage : History -> Format -> Options -> Exn + string;
  (** [new Date().toLocaleDateString('en-US', ...)] *)
  toLocaleDateString : History -> string
}.

(* ===================================================================== *)
(** * Application data ([types.ts] and the state of [App]) *)
(* ===================================================================== *)

Record CardData : Type := {
  url : string;
  domain : string;
  title : JsValue;
  description : JsValue;
  screenshotUrl : string;
  backupScreenshotUrl : option string;
  faviconUrl : string;
  qrCodeDataUrl : string;
  timestamp : string
}.

Inductive Step : Type :=
| idle | fetching_metadata | generating_qr | completed | error.

Record GenerationStatus : Type := { step : Step; message : option string }.

Inductive Theme : Type := Light | Dark.

Definition Theme_value (t : Theme) : string :=
  match t with Light => "light" | Dark => "dark" end.

Record Viewport : Type := {
  vp_id : string; vp_label : string; width : Z; height : Z
}.

Definition VIEWPORT_OPTIONS : list Viewport :=
  [ {| vp_id := "desktop"; vp_label := "Desktop"; width := 1280; height := 800 |};
    {| vp_id := "mobile"; vp_label := "Mobile"; width := 375; height := 812 |};
    {| vp_id := "tablet"; vp_label := "Tablet"; width := 768; height := 1024 |} ].

(** The node [cardRef.current] points to, when the card is mounted. *)
Inductive Node : Type := CardNode.

Record AppState : Type := {
  urlInput : string;
  cardData : option CardData;
  status : GenerationStatus;
  theme : Theme;
  websiteTheme : Theme;
  showSocialPreview : bool;
  socialImage : string;
  selectedViewport : Viewport;
  cardRef : option Node
}.

Definition INITIAL_CARD : option CardData := None.

Definition initialApp : AppState :=
  {| urlInput := "";
     cardData := INITIAL_CARD;
     status := {| step := idle; message := None |};
     theme := Light;
     websiteTheme := Light;
     showSocialPreview := false;
     socialImage := "";
     selectedViewport :=
       {| vp_id := "desktop"; vp_label := "Desktop"; width := 1280; height := 800 |};
     cardRef := None |}.

(** The whole state a handler runs in: the React state of [App] and the
    trace of platform calls. *)
Record World : Type := { app : AppState; trace : History }.

(* ===================================================================== *)
(** * The monad of handlers: state and exceptions *)
(* ===================================================================== *)

Definition M (A : Type) : Type := World -> (Exn + A) * World.

Definition ret {A} (a : A) : M A := fun w => (inr a, w).

Definition throw {A} (e : Exn) : M A := fun w => (inl e, w).

Definition bind {A B} (c : M A) (k : A -> M B) : M B :=
  fun w =>
    match c w with
    | (inl e, w') => (inl e, w')
    | (inr a, w') => k a w'
    end.

(** [try { c } catch (e) { handler e }]: the state reached when [c] threw
    is the state the handler starts from. *)
Definition try_catch {A} (c : M A) (handler : Exn -> M A) : M A :=
  fun w =>
    match c w with
    | (inl e, w') => handler e w'
    | (inr a, w') => (inr a, w')
    end.

(** A value that is already an outcome (a settled promise being awaited). *)
Definition settle {A} (r : Exn + A) : M A := fun w => (r, w).

(** A call to the platform: the oracle answers from the trace so far and
    the call is appended to the trace. *)
Definition call {A} (ev : Event) (oracle : History -> Exn + A) : M A :=
  fun w => (oracle (trace w), {| app := app w; trace := (trace w ++ [ev])%list |}).

Definition getApp : M AppState := fun w => (inr (app w), w).

Definition modifyApp (f : AppState -> AppState) : M unit :=
  fun w => (inr tt, {| app := f (app w); trace := trace w |}).

Declare Scope handler_scope.
Delimit Scope handler_scope with handler.
Notation "x <- c ;; k" := (bind c (fun x => k))
  (at level 61, c at next level, right associativity) : handler_scope.
Notation "c ;; k" := (bind c (fun _ => k))
  (at level 61, right associativity) : handler_scope.
Local Open Scope handler_scope.

(** The three-way outcome of one pass through a loop body. *)
Inductive Flow (A : Type) : Type :=
| Continue
| Return (a : A).
Arguments Continue {A}.
Arguments Return {A} a.

(* ===================================================================== *)
(** * [services/gemini]: the Metadata Acquirer *)
(* ===================================================================== *)

(** [v.k] on a parsed JSON value, for a key that is no built-in property
    ([title], [description]): reading a property of [null] throws, an
    object gives its field (the last one of that name, as [JSON.parse]
    keeps it) or [undefined], every other value gives [undefined]. *)
Fixpoint lookupField (k : string) (fields : list (string * JSON)) : JsValue :=
  match fields with
  | [] => None
  | (k', v) :: rest =>
      match lookupField k rest with
      | Some v' => Some v'
      | None => if String.eqb k k' then Some v else None
      end
  end.

Definition getProp (v : JSON) (k : string) : Exn + JsValue :=
  match v with
  | JNull => inl (JsError "Cannot read properties of null")
  | JObject fields => inr (lookupField k fields)
  | _ => inr None
  end.

(** The object literal of the two fallbacks of [fetchMetadataWithGemini]. *)
Definition metadataObject (title description : string) : JSON :=
  JObject [ ("title", JString title);
            ("description", JString description);
            ("author", JString "");
            ("publishedTime", JString "");
            ("keywords", JArray []) ].

Section Gemini.

Variable P : Platform.

(** The [try] block: ask the model, reject an empty answer, strip the
    markdown fences, parse. The result of [JSON.parse] is returned as
    it is. *)
Definition fetchMetadata_try (url : string) : M JSON :=
  text <- call (EvGenerateContent url) (fun h => generateContent P h url) ;;
  match text with
  | None => throw (JsError "Empty response from Gemini")
  | Some text =>
      if negb (JsString.truthy text)
      then throw (JsError "Empty response from Gemini")
      else
        let text :=
          JsString.trim
            (JsString.removeAll (JsString.removeAll text "```json") "```") in
        settle (JSON_parse P text)
  end.

(** The [catch] block: the fallback built from the URL, and the second
    fallback when the URL does not parse either. *)
Definition fetchMetadata_catch (url : string) (error : Exn) : M JSON :=
  try_catch
    (domain <- settle (URL_hostname P url) ;;
     ret (metadataObject domain ("Link to " ++ url)))
    (fun _ => ret (metadataObject "Website" url)).

Definition fetchMetadataWithGemini (url : string) : M JSON :=
  try_catch (fetchMetadata_try url) (fetchMetadata_catch url).

End Gemini.

(* ===================================================================== *)
(** * [App.tsx]: proxy resolver and favicon acquirer *)
(* ===================================================================== *)

(** The template of [getProxiedUrl] at clock reading [t]. *)
Definition proxiedUrlAt (t : Z) (target : string) : string :=
  "https://wsrv.nl/?url=" ++ JsString.encodeURIComponent target
    ++ "&output=png&n=" ++ JsString.ofZ t.

(** The priority list of favicon services. *)
Definition faviconServices (domain originalUrl : string) : list string :=
  [ "https://t2.gstatic.com/faviconV2?client=SOCIAL&type=FAVICON&fallback_opts=TYPE,SIZE,URL&url="
      ++ JsString.encodeURIComponent originalUrl ++ "&size=128";
    "https://www.google.com/s2/favicons?domain=" ++ domain ++ "&sz=128";
    "https://icons.duckduckgo.com/ip3/" ++ domain ++ ".ico" ].

(** [blob.size < 100 || blob.type.includes('text') || blob.type.includes('html')] *)
Definition blobRejected (b : Blob) : bool :=
  (blob_size b <? 100)%N
  || JsString.includes (blob_type b) "text"
  || JsString.includes (blob_type b) "html".

(** What the [onloadend] handler resolves the promise with. *)
Definition dataUriOrEmpty (result : option string) : string :=
  match result with
  | Some r =>
      if JsString.truthy r && JsString.startsWith r "data:image" then r else ""
  | None => ""
  end.

Section Favicon.

Variable P : Platform.

Definition getProxiedUrl (target : string) : M string :=
  t <- call EvDateNow (fun h => inr (Date_now P h)) ;;
  ret (proxiedUrlAt t target).

(** The body of the [try] block for one candidate: [Continue] is the
    [continue] statement, [Return v] the [return] of the promise that
    resolves to [v]. *)
Definition faviconCandidate_try (serviceUrl : string) : M (Flow string) :=
  proxiedUrl <- getProxiedUrl serviceUrl ;;
  response <- call (EvFetch proxiedUrl) (fun h => fetch P h proxiedUrl) ;;
  if negb (ok response) then ret Continue
  else
    blob <- settle (blob response) ;;
    if blobRejected blob then ret Continue
    else
      result <- call (EvReadAsDataURL blob)
                     (fun h => inr (FileReader_result P h blob)) ;;
      ret (Return (dataUriOrEmpty result)).

(** One candidate with its [catch]: a transport error is logged and the
    loop continues. *)
Definition faviconCandidate (serviceUrl : string) : M (Flow string) :=
  try_catch (faviconCandidate_try serviceUrl) (fun _ => ret Continue).

(** [for (const serviceUrl of services) { ... } return '';] *)
Fixpoint faviconLoop (services : list string) : M string :=
  match services with
  | [] => ret ""
  | serviceUrl :: rest =>
      r <- faviconCandidate serviceUrl ;;
      match r with
      | Return v => ret v
      | Continue => faviconLoop rest
      end
  end.

Definition fetchFaviconBase64 (domain originalUrl : string) : M string :=
  faviconLoop (faviconServices domain originalUrl).

End Favicon.

(* ===================================================================== *)
(** * [App.tsx]: the Card Assembler *)
(* ===================================================================== *)

(** [/^https?:\/\//i.test(s)] *)
Definition hasHttpScheme (s : string) : bool :=
  JsString.prefix_ci "http://" s || JsString.prefix_ci "https://" s.

(** The input trimmed and given a scheme when it has none. *)
Definition processUrl (urlInput : string) : string :=
  let processedUrl := JsString.trim urlInput in
  if negb (hasHttpScheme processedUrl)
  then "https://" ++ processedUrl
  else processedUrl.

(** [urlObj.hostname.replace('www.', '')] *)
Definition displayDomain (hostname : string) : string :=
  JsString.replace hostname "www." "".

Definition microlinkUrl (processedUrl : string) (vp : Viewport) (websiteTheme : Theme)
  : string :=
  "https://api.microlink.io/?url=" ++ JsString.encodeURIComponent processedUrl
    ++ "&screenshot=true&meta=false&embed=screenshot.url&screenshot.type=png&screenshot.deviceScaleFactor=2&waitFor=2s&screenshot.fullPage=false&screenshot.bg=true&viewport.width="
    ++ JsString.ofZ (width vp) ++ "&viewport.height=" ++ JsString.ofZ (height vp)
    ++ "&colorScheme=" ++ Theme_value websiteTheme.

Definition mshotsUrl (processedUrl : string) (vp : Viewport) : string :=
  "https://s0.wp.com/mshots/v1/" ++ JsString.encodeURIComponent processedUrl
    ++ "?w=" ++ JsString.ofZ (width vp) ++ "&h=" ++ JsString.ofZ (height vp).

Definition setStatus (st : GenerationStatus) : M unit :=
  modifyApp (fun a =>
    {| urlInput := urlInput a; cardData := cardData a; status := st;
       theme := theme a; websiteTheme := websiteTheme a;
       showSocialPreview := showSocialPreview a; socialImage := socialImage a;
       selectedViewport := selectedViewport a; cardRef := cardRef a |}).

Definition setCardData (c : option CardData) : M unit :=
  modifyApp (fun a =>
    {| urlInput := urlInput a; cardData := c; status := status a;
       theme := theme a; websiteTheme := websiteTheme a;
       showSocialPreview := showSocialPreview a; socialImage := socialImage a;
       selectedViewport := selectedViewport a; cardRef := cardRef a |}).

Definition setSocialImage (img : string) : M unit :=
  modifyApp (fun a =>
    {| urlInput := urlInput a; cardData := cardData a; status := status a;
       theme := theme a; websiteTheme := websiteTheme a;
       showSocialPreview := showSocialPreview a; socialImage := img;
       selectedViewport := selectedViewport a; cardRef := cardRef a |}).

Definition setShowSocialPreview (b : bool) : M unit :=
  modifyApp (fun a =>
    {| urlInput := urlInput a; cardData := cardData a; status := status a;
       theme := theme a; websiteTheme := websiteTheme a;
       showSocialPreview := b; socialImage := socialImage a;
       selectedViewport := selectedViewport a; cardRef := cardRef a |}).

(** The outcome of [c] as a value: how one input promise of
    [Promise.all] settles. *)
Definition settled {A} (c : M A) : M (Exn + A) :=
  fun w => let (r, w') := c w in (inr r, w').

(** [await Promise.all([a, b, c])], run to the point where all three
    inputs have settled: the three values, or the rejection of the first
    input (in array order) that rejected. The interleaving of the three
    is not represented: each input runs to its end before the next. *)
Definition promiseAll3 {A B C} (a : M A) (b : M B) (c : M C) : M (A * B * C) :=
  ra <- settled a ;;
  rb <- settled b ;;
  rc <- settled c ;;
  match ra, rb, rc with
  | inr x, inr y, inr z => ret (x, y, z)
  | inl e, _, _ => throw e
  | _, inl e, _ => throw e
  | _, _, inl e => throw e
  end.

Section Assembler.

Variable P : Platform.

(** The [try] block of [handleGenerate]. [a] is the state the handler
    closed over when it was called. *)
Definition handleGenerate_try (a : AppState) (processedUrl : string) : M unit :=
  setStatus {| step := fetching_metadata;
               message := Some "Analyzing URL with Gemini..." |} ;;
  hostname <- settle (URL_hostname P processedUrl) ;;
  let domain := displayDomain hostname in
  r <- promiseAll3
         (fetchMetadataWithGemini P processedUrl)
         (call (EvQRCode processedUrl) (fun h => QRCode_toDataURL P h processedUrl))
         (fetchFaviconBase64 P domain processedUrl) ;;
  let '(metadata, qrDataUrl, faviconBase64) := r in
  primaryScreenshotUrl <-
    getProxiedUrl P (microlinkUrl processedUrl (selectedViewport a) (websiteTheme a)) ;;
  backupScreenshotUrl <-
    getProxiedUrl P (mshotsUrl processedUrl (selectedViewport a)) ;;
  title <- settle (getProp metadata "title") ;;
  description <- settle (getProp metadata "description") ;;
  timestamp <- call EvLocaleDate (fun h => inr (toLocaleDateString P h)) ;;
  let newCard :=
    {| url := processedUrl;
       domain := domain;
       title := title;
       description := description;
       screenshotUrl := primaryScreenshotUrl;
       backupScreenshotUrl := Some backupScreenshotUrl;
       faviconUrl := faviconBase64;
       qrCodeDataUrl := qrDataUrl;
       timestamp := timestamp |} in
  setCardData (Some newCard) ;;
  setStatus {| step := completed; message := None |}.

Definition handleGenerate : M unit :=
  a <- getApp ;;
  if negb (JsString.truthy (JsString.trim (urlInput a))) then ret tt
  else
    let processedUrl := processUrl (urlInput a) in
    try_catch
      (handleGenerate_try a processedUrl)
      (fun _ =>
         setStatus {| step := error;
                      message := Some "Failed to generate card. Please try again." |}).

End Assembler.

(* ===================================================================== *)
(** * [App.tsx]: the Image Export Pipeline *)
(* ===================================================================== *)

Definition noOptions : Options :=
  {| quality := None; pixelRatio := None; cacheBust := None;
     backgroundColor := None; useCORS := None; preferredFontFormat := None;
     skipFonts := None |}.

(** [{ ...options, useCORS: true, preferredFontFormat: 'woff2' }] *)
Definition exportConfig (options : Options) : Options :=
  {| quality := quality options; pixelRatio := pixelRatio options;
     cacheBust := cacheBust options; backgroundColor := backgroundColor options;
     useCORS := Some true; preferredFontFormat := Some "woff2";
     skipFonts := skipFonts options |}.

(** [{ ...config, skipFonts: true }] *)
Definition withSkipFonts (config : Options) : Options :=
  {| quality := quality config; pixelRatio := pixelRatio config;
     cacheBust := cacheBust config; backgroundColor := backgroundColor config;
     useCORS := useCORS config; preferredFontFormat := preferredFontFormat config;
     skipFonts := Some true |}.

(** [{ cacheBust: true, skipFonts: true }], the options of the pre-warm. *)
Definition prewarmOptions : Options :=
  {| quality := None; pixelRatio := None; cacheBust := Some true;
     backgroundColor := None; useCORS := None; preferredFontFormat := None;
     skipFonts := Some true |}.

Definition downloadPngOptions : Options :=
  {| quality := Some (1 # 1)%Q; pixelRatio := Some (3 # 1)%Q; cacheBust := Some true;
     backgroundColor := Some None; useCORS := None; preferredFontFormat := None;
     skipFonts := None |}.

Definition downloadSvgOptions : Options :=
  {| quality := None; pixelRatio := None; cacheBust := Some true;
     backgroundColor := Some None; useCORS := None; preferredFontFormat := None;
     skipFonts := None |}.

Definition socialPreviewOptions : Options :=
  {| quality := Some (9 # 10)%Q; pixelRatio := Some (3 # 2)%Q; cacheBust := Some true;
     backgroundColor := Some None; useCORS := None; preferredFontFormat := None;
     skipFonts := None |}.

(** The message [handleDownloadError] shows. *)
Definition errorMessage (err : Exn) : string :=
  match err with
  | JsError m => m
  | JsObject (Some j) => j
  | JsObject None => "Event or Network Error"
  | JsPrimitive => "Unknown error occurred"
  end.

Section ExportPipeline.

Variable P : Platform.

(** [htmlToImage.toPng(node, o)] or [htmlToImage.toSvg(node, o)]. *)
Definition render (f : Format) (o : Options) : M string :=
  call (EvRender f o) (fun h => htmlToImage P h f o).

Definition generateImage (node : Node) (options : Options) (format : Format)
  : M string :=
  let config := exportConfig options in
  try_catch
    (render format config)
    (fun _ =>
       try_catch
         (let fallbackConfig := withSkipFonts config in
          render format fallbackConfig)
         (fun err2 => throw err2)).

(** [triggerDownload], with the card and theme the handler closed over. *)
Definition triggerDownload (a : AppState) (dataUrl extension : string) : M unit :=
  match cardData a with
  | None => ret tt
  | Some card =>
      call (EvDownload
              ("smart-card-" ++ domain card ++ "-" ++ Theme_value (theme a)
                 ++ "." ++ extension)
              dataUrl)
           (fun _ => inr tt)
  end.

Definition handleDownloadError (err : Exn) : M unit :=
  call (EvAlert
          ("Could not generate image. Error: " ++ errorMessage err
             ++ ". 

This is often due to browser security blocking the image download."))
       (fun _ => inr tt).

Definition handleDownloadPng : M unit :=
  a <- getApp ;;
  match cardRef a, cardData a with
  | Some node, Some _ =>
      try_catch
        (try_catch (render png prewarmOptions ;; ret tt) (fun _ => ret tt) ;;
         dataUrl <- generateImage node downloadPngOptions png ;;
         triggerDownload a dataUrl "png")
        handleDownloadError
  | _, _ => ret tt
  end.

Definition handleDownloadSvg : M unit :=
  a <- getApp ;;
  match cardRef a, cardData a with
  | Some node, Some _ =>
      try_catch
        (dataUrl <- generateImage node downloadSvgOptions svg ;;
         triggerDownload a dataUrl "svg")
        handleDownloadError
  | _, _ => ret tt
  end.

Definition handleSocialPreview : M unit :=
  a <- getApp ;;
  match cardRef a, cardData a with
  | Some node, Some _ =>
      try_catch
        (dataUrl <- generateImage node socialPreviewOptions png ;;
         setSocialImage dataUrl ;;
         setShowSocialPreview true)
        (fun _ =>
           call (EvAlert "Could not generate social preview.") (fun _ => inr tt))
  | _, _ => ret tt
  end.

End ExportPipeline.

(* ===================================================================== *)
(** * [components/SmartCard]: the screenshot fallback state *)
(* ===================================================================== *)

Module SmartCard.

(** The [useState] cells of the component. *)
Record State : Type := {
  imageError : bool;
  faviconError : bool;
  imageLoading : bool;
  currentScreenshotUrl : string
}.

(** The state of the first render. *)
Definition initial : State :=
  {| imageError := false; faviconError := false; imageLoading := true;
     currentScreenshotUrl := "" |}.

(** The effect that runs when [data] changes. *)
Definition onDataChange (data : option CardData) (st : State) : State :=
  match data with
  | Some d =>
      {| imageError := false; faviconError := false; imageLoading := true;
         currentScreenshotUrl := screenshotUrl d |}
  | None => st
  end.

(** [data.backupScreenshotUrl && currentScreenshotUrl === data.screenshotUrl] *)
Definition canFallBack (data : CardData) (st : State) : bool :=
  match backupScreenshotUrl data with
  | Some b => JsString.truthy b
              && String.eqb (currentScreenshotUrl st) (screenshotUrl data)
  | None => false
  end.

Definition handleScreenshotError (data : CardData) (st : State) : State :=
  match backupScreenshotUrl data with
  | Some b =>
      if JsString.truthy b
         && String.eqb (currentScreenshotUrl st) (screenshotUrl data)
      then {| imageError := imageError st; faviconError := faviconError st;
              imageLoading := imageLoading st; currentScreenshotUrl := b |}
      else {| imageError := true; faviconError := faviconError st;
              imageLoading := false;
              currentScreenshotUrl := currentScreenshotUrl st |}
  | None =>
      {| imageError := true; faviconError := faviconError st;
         imageLoading := false;
         currentScreenshotUrl := currentScreenshotUrl st |}
  end.

(** [onLoad={() => setImageLoading(false)}] *)
Definition handleLoad (st : State) : State :=
  {| imageError := imageError st; faviconError := faviconError st;
     imageLoading := false; currentScreenshotUrl := currentScreenshotUrl st |}.

(** The screenshot [<img>] is in the tree:
    [!imageError && currentScreenshotUrl]. *)
Definition imgRendered (st : State) : bool :=
  negb (imageError st) && JsString.truthy (currentScreenshotUrl st).

(** What the image element can report. *)
Inductive ImgEvent : Type := Load | Error.

Definition handle (data : CardData) (ev : ImgEvent) (st : State) : State :=
  match ev with
  | Load => handleLoad st
  | Error => handleScreenshotError data st
  end.

(** One reaction of the component to its image: the element only
    reports while it is rendered. *)
Inductive step (data : CardData) : State -> ImgEvent -> State -> Prop :=
| step_event : forall st ev,
    imgRendered st = true ->
    step data st ev (handle data ev st).

(** A run of the component on one record: the events its image reports,
    in order. *)
Inductive run (data : CardData) : State -> list ImgEvent -> State -> Prop :=
| run_nil : forall st, run data st [] st
| run_cons : forall st ev st' evs st'',
    step data st ev st' -> run data st' evs st'' ->
    run data st (ev :: evs) st''.

(** The states of the fallback machine, read off the component state. *)
Inductive Phase : Type := PendingPrimary | PendingBackup | Loaded | Unavailable.

Definition phase (data : CardData) (st : State) : Phase :=
  if imageError st then Unavailable
  else if negb (imageLoading st) then Loaded
  else if String.eqb (currentScreenshotUrl st) (screenshotUrl data)
       then PendingPrimary
       else PendingBackup.

(** The handler took its first branch: the source was switched. *)
Definition switched (data : CardData) (ev : ImgEvent) (st : State) : bool :=
  match ev with
  | Error => canFallBack data st
  | Load => false
  end.

(** The load failures among the events. *)
Fixpoint failures (evs : list ImgEvent) : nat :=
  match evs with
  | [] => 0
  | Error :: rest => S (failures rest)
  | Load :: rest => failures rest
  end.

(** The number of switches to the backup along a run from [st]. *)
Fixpoint switches (data : CardData) (st : State) (evs : list ImgEvent) : nat :=
  match evs with
  | [] => 0
  | ev :: rest =>
      (if switched data ev st then 1 else 0)
      + switches data (handle data ev st) rest
  end.

End SmartCard.

(* ===================================================================== *)
(** * Definitions used to state the properties *)
(* ===================================================================== *)

(** The value of an upper-case hexadecimal digit. *)
Definition hexValue (c : ascii) : option nat :=
  let n := nat_of_ascii c in
  if (48 <=? n) && (n <=? 57) then Some (n - 48)
  else if (65 <=? n) && (n <=? 70) then Some (n - 55)
  else None.

(** Reads back the first byte of an encoded component: the inverse of
    [JsString.encodeByte] at the front of a string. *)
Definition decodeFront (s : string) : option (ascii * string) :=
  match s with
  | EmptyString => None
  | String c r =>
      if Ascii.eqb c "%" then
        match r with
        | String h (String l r') =>
            match hexValue h, hexValue l with
            | Some a, Some b => Some (ascii_of_nat (16 * a + b), r')
            | _, _ => None
            end
        | _ => None
        end
      else Some (c, r)
  end.

(** Two calls of the proxy resolver in a row for the same target. *)
Definition resolveTwice (P : Platform) (target : string) : M (string * string) :=
  u1 <- getProxiedUrl P target ;;
  u2 <- getProxiedUrl P target ;;
  ret (u1, u2).

(** A favicon candidate's response is refused by the acquirer: the request
    failed, the status is not a success, the body could not be read, or
    the body is too small or declared as text or HTML. *)
Definition responseRefused (r : Exn + Response) : bool :=
  match r with
  | inl _ => true
  | inr resp =>
      negb (ok resp) ||
      match blob resp with
      | inl _ => true
      | inr b => blobRejected b
      end
  end.

(** The trace after the candidates [services] were tried in order and
    each was refused: one clock reading and one request per candidate. *)
Fixpoint traceAfterRefused (P : Platform) (h : History) (services : list string)
  : History :=
  match services with
  | [] => h
  | s :: rest =>
      traceAfterRefused P
        (h ++ [EvDateNow; EvFetch (proxiedUrlAt (Date_now P h) s)])%list rest
  end.

(** The candidates [services], tried in order from trace [h], are each
    refused: the response to the request made for each of them, at the
    point where it is made, is a refused one. *)
Fixpoint refusedInTurn (P : Platform) (h : History) (services : list string) : Prop :=
  match services with
  | [] => True
  | s :: rest =>
      responseRefused
        (fetch P (h ++ [EvDateNow])%list (proxiedUrlAt (Date_now P h) s)) = true
      /\ refusedInTurn P
           (h ++ [EvDateNow; EvFetch (proxiedUrlAt (Date_now P h) s)])%list rest
  end.

(** The conversion of an accepted body gave no string that begins with
    [data:image]. *)
Definition notImageDataUri (result : option string) : bool :=
  match result with
  | Some r => negb (JsString.startsWith r "data:image")
  | None => true
  end.

(** A computation that leaves the React state of [App] as it found it. *)
Definition keepsApp {A : Type} (c : M A) : Prop :=
  forall w : World, app (snd (c w)) = app w.

(** A card whose two screenshot references are what the assembler makes
    them: the proxied microlink and mShots URLs of one processed URL. *)
Definition builtByAssembler (card : CardData) : Prop :=
  exists (t1 t2 : Z) (processedUrl : string) (vp : Viewport) (th : Theme),
    screenshotUrl card = proxiedUrlAt t1 (microlinkUrl processedUrl vp th)
    /\ backupScreenshotUrl card = Some (proxiedUrlAt t2 (mshotsUrl processedUrl vp)).

(** The rest of a handler, run from [w], either throws with the React
    state untouched, or returns having published a card that satisfies
    [Q] and set the status to [completed]. *)
Definition publishesAt (Q : CardData -> Prop) (c : M unit) (w : World) : Prop :=
  (exists e, fst (c w) = inl e /\ app (snd (c w)) = app w)
  \/ (fst (c w) = inr tt
      /\ step (status (app (snd (c w)))) = completed
      /\ exists card, cardData (app (snd (c w))) = Some card /\ Q card).

Definition publishesOrThrows (Q : CardData -> Prop) (c : M unit) : Prop :=
  forall w : World, publishesAt Q c w.

(** Two React states that differ at most in the generation status. *)
Definition sameButStatus (a a' : AppState) : Prop :=
  urlInput a' = urlInput a /\ cardData a' = cardData a /\ theme a' = theme a
  /\ websiteTheme a' = websiteTheme a
  /\ showSocialPreview a' = showSocialPreview a
  /\ socialImage a' = socialImage a
  /\ selectedViewport a' = selectedViewport a /\ cardRef a' = cardRef a.

(** The requests of a trace, in order. *)
Fixpoint fetched (h : History) : list string :=
  match h with
  | [] => []
  | EvFetch u :: rest => u :: fetched rest
  | _ :: rest => fetched rest
  end.

(** The captures of a trace, in order. *)
Fixpoint captures (h : History) : list (Format * Options) :=
  match h with
  | [] => []
  | EvRender f o :: rest => (f, o) :: captures rest
  | _ :: rest => captures rest
  end.


(** The fallback the acquirer builds from [url] alone. *)
Definition metadataFallback (P : Platform) (url : string) : JSON :=
  match URL_hostname P url with
  | inr hostname => metadataObject hostname ("Link to " ++ url)
  | inl _ => metadataObject "Website" url
  end.

(* ===================================================================== *)
(** * Concrete platforms, for running the handlers *)
(* ===================================================================== *)

Module Reference.

(** The authority of an [http(s)://] URL: what follows the scheme, up to
    the first [/], [?] or [#]. *)
Fixpoint upTo (stop : ascii -> bool) (s : string) : string :=
  match s with
  | EmptyString => EmptyString
  | String c s' => if stop c then EmptyString else String c (upTo stop s')
  end.

Definition isAuthorityEnd (c : ascii) : bool :=
  Ascii.eqb c "/" || Ascii.eqb c "?" || Ascii.eqb c "#".

Definition isPortStart (c : ascii) : bool := Ascii.eqb c ":".

Fixpoint mapChars (f : ascii -> ascii) (s : string) : string :=
  match s with
  | EmptyString => EmptyString
  | String c s' => String (f c) (mapChars f s')
  end.

Fixpoint allChars (ok : ascii -> bool) (s : string) : bool :=
  match s with
  | EmptyString => true
  | String c s' => ok c && allChars ok s'
  end.

(** Letters, digits, [-] and [.]: the characters of a plain host name. *)
Definition isHostChar (c : ascii) : bool :=
  let n := nat_of_ascii c in
  ((97 <=? n) && (n <=? 122)) || ((48 <=? n) && (n <=? 57))
  || (n =? 45) || (n =? 46).

(** The [hostname] of the URL parser on the URLs used in this file:
    [http(s)://host[:port][/...]] with a plain ASCII host name, which is
    lower-cased; anything else is reported as invalid. *)
Definition hostname (s : string) : Exn + string :=
  let rest :=
    if JsString.prefix_ci "https://" s then Some (JsString.drop 8 s)
    else if JsString.prefix_ci "http://" s then Some (JsString.drop 7 s)
    else None in
  match rest with
  | None => inl (JsError "Invalid URL")
  | Some r =>
      let host := mapChars JsString.lower (upTo isPortStart (upTo isAuthorityEnd r)) in
      if JsString.truthy host && allChars isHostChar host
      then inr host
      else inl (JsError "Invalid URL")
  end.

(** The number of captures already asked of the renderer. *)
Definition renders (h : History) : nat :=
  List.length
    (List.filter (fun ev => match ev with EvRender _ _ => true | _ => false end) h).

(** A browser without network whose clock stands at one millisecond for
    the whole run: no request succeeds, only the first [failing]
    captures of the renderer throw, and no text is ever there to parse. *)
Definition offline (failing : nat) : Platform :=
  {| Date_now := fun _ => 1700000000000%Z;
     fetch := fun _ _ => inl (JsError "Failed to fetch");
     FileReader_result := fun _ _ => None;
     generateContent := fun _ _ => inl (JsError "Failed to fetch");
     JSON_parse := fun _ => inl (JsError "Unexpected end of JSON input");
     URL_hostname := hostname;
     QRCode_toDataURL := fun _ _ => inr "data:image/png;base64,QR";
     htmlToImage := fun h f _ =>
       if renders h <? failing
       then inl (JsError "Failed to fetch font")
       else inr (match f with
                 | png => "data:image/png;base64,CARD"
                 | svg => "data:image/svg+xml;charset=utf-8,CARD"
                 end);
     toLocaleDateString := fun _ => "Nov 14, 2023" |}.

(** A network on which every request is answered with [response]. *)
Definition answering (response : Response) (readerResult : option string)
  : Platform :=
  {| Date_now := fun h => (1700000000000 + Z.of_nat (List.length h))%Z;
     fetch := fun _ _ => inr response;
     FileReader_result := fun _ _ => readerResult;
     generateContent := fun _ _ => inl (JsError "Failed to fetch");
     JSON_parse := fun _ => inl (JsError "Unexpected end of JSON input");
     URL_hostname := hostname;
     QRCode_toDataURL := fun _ _ => inr "data:image/png;base64,QR";
     htmlToImage := fun _ _ _ => inr "data:image/png;base64,CARD";
     toLocaleDateString := fun _ => "Nov 14, 2023" |}.

Definition notFound : Response :=
  {| ok := false; blob := inr {| blob_size := 9; blob_type := "text/plain" |} |}.

Definition pngBody : Response :=
  {| ok := true; blob := inr {| blob_size := 2048; blob_type := "image/png" |} |}.

(** The application with [input] typed in the URL field. *)
Definition typed (input : string) : World :=
  {| app :=
       {| urlInput := input; cardData := None;
          status := {| step := idle; message := None |};
          theme := Light; websiteTheme := Light;
          showSocialPreview := false; socialImage := "";
          selectedViewport := selectedViewport initialApp;
          cardRef := None |};
     trace := [] |}.

Definition exampleCard : CardData :=
  {| url := "https://example.com";
     domain := "example.com";
     title := Some (JString "Example Domain");
     description := Some (JString "An example");
     screenshotUrl := "https://wsrv.nl/?url=primary&output=png&n=1";
     backupScreenshotUrl := Some "https://wsrv.nl/?url=backup&output=png&n=2";
     faviconUrl := "";
     qrCodeDataUrl := "data:image/png;base64,QR";
     timestamp := "Nov 14, 2023" |}.

(** The application showing [exampleCard], the card mounted. *)
Definition showing : World :=
  {| app :=
       {| urlInput := "example.com"; cardData := Some exampleCard;
          status := {| step := completed; message := None |};
          theme := Light; websiteTheme := Light;
          showSocialPreview := false; socialImage := "";
          selectedViewport := selectedViewport initialApp;
          cardRef := Some CardNode |};
     trace := [] |}.

End Reference.

(* ===================================================================== *)
(** * [App.tsx]: the remaining handlers and what the page shows *)
(* ===================================================================== *)

(** [onChange={(e) => setUrlInput(e.target.value)}] *)
Definition setUrlInput (value : string) : M unit :=
  modifyApp (fun a =>
    {| urlInput := value; cardData := cardData a; status := status a;
       theme := theme a; websiteTheme := websiteTheme a;
       showSocialPreview := showSocialPreview a; socialImage := socialImage a;
       selectedViewport := selectedViewport a; cardRef := cardRef a |}).

(** [onClick={() => setSelectedViewport(opt)}] *)
Definition setSelectedViewport (opt : Viewport) : M unit :=
  modifyApp (fun a =>
    {| urlInput := urlInput a; cardData := cardData a; status := status a;
       theme := theme a; websiteTheme := websiteTheme a;
       showSocialPreview := showSocialPreview a; socialImage := socialImage a;
       selectedViewport := opt; cardRef := cardRef a |}).

Definition otherTheme (t : Theme) : Theme :=
  match t with Light => Dark | Dark => Light end.

(** [setTheme(prev => prev === Theme.Light ? Theme.Dark : Theme.Light)] *)
Definition toggleTheme : M unit :=
  modifyApp (fun a =>
    {| urlInput := urlInput a; cardData := cardData a; status := status a;
       theme := otherTheme (theme a); websiteTheme := websiteTheme a;
       showSocialPreview := showSocialPreview a; socialImage := socialImage a;
       selectedViewport := selectedViewport a; cardRef := cardRef a |}).

(** [setWebsiteTheme(prev => prev === 'light' ? 'dark' : 'light')] *)
Definition toggleWebsiteTheme : M unit :=
  modifyApp (fun a =>
    {| urlInput := urlInput a; cardData := cardData a; status := status a;
       theme := theme a; websiteTheme := otherTheme (websiteTheme a);
       showSocialPreview := showSocialPreview a; socialImage := socialImage a;
       selectedViewport := selectedViewport a; cardRef := cardRef a |}).

(** React attaching the card node to [cardRef], or detaching it. *)
Definition attachCardRef (r : option Node) : M unit :=
  modifyApp (fun a =>
    {| urlInput := urlInput a; cardData := cardData a; status := status a;
       theme := theme a; websiteTheme := websiteTheme a;
       showSocialPreview := showSocialPreview a; socialImage := socialImage a;
       selectedViewport := selectedViewport a; cardRef := r |}).

(** [status.step === 'fetching_metadata' || status.step === 'generating_qr'] *)
Definition isGenerating (a : AppState) : bool :=
  match step (status a) with
  | fetching_metadata | generating_qr => true
  | _ => false
  end.


(** What the user can do on the page. [SelectViewport] carries one of the
    buttons the page draws, one per entry of [VIEWPORT_OPTIONS]. *)
Inductive Action : Type :=
| TypeUrl (value : string)
| SelectViewport (opt : Viewport)
| ToggleTheme
| ToggleWebsiteTheme
| Generate
| DownloadPng
| DownloadSvg
| OpenSocialPreview
| CloseSocialPreview
| AttachCardRef (r : option Node).

(** The handler behind each action, run to its end. *)
Definition perform (P : Platform) (act : Action) : M unit :=
  match act with
  | TypeUrl value => setUrlInput value
  | SelectViewport opt => setSelectedViewport opt
  | ToggleTheme => toggleTheme
  | ToggleWebsiteTheme => toggleWebsiteTheme
  | Generate => handleGenerate P
  | DownloadPng => handleDownloadPng P
  | DownloadSvg => handleDownloadSvg P
  | OpenSocialPreview => handleSocialPreview P
  | CloseSocialPreview => setShowSocialPreview false
  | AttachCardRef r => attachCardRef r
  end.

(** The page offers the action: a viewport button exists for the entries
    of [VIEWPORT_OPTIONS] only. *)
Definition offered (act : Action) : Prop :=
  match act with
  | SelectViewport opt => In opt VIEWPORT_OPTIONS
  | _ => True
  end.

(** The worlds the application reaches from its first render, one
    handler at a time (a handler is not interrupted by another). *)
Inductive reachable (P : Platform) : World -> Prop :=
| reachable_start : reachable P {| app := initialApp; trace := [] |}
| reachable_perform : forall w act,
    reachable P w -> offered act ->
    reachable P (snd (perform P act w)).

(* ===================================================================== *)
(** * [components/SmartCard]: the favicon and the screenshot area *)
(* ===================================================================== *)

Module SmartCardView.





(** The shimmer overlay is in the tree: [imageLoading && !imageError]. *)
Definition shimmerShown (st : SmartCard.State) : bool :=
  SmartCard.imageLoading st && negb (SmartCard.imageError st).

(** The [Preview Unavailable] panel is in the tree: the other branch of
    [!imageError && currentScreenshotUrl]. *)
Definition unavailableShown (st : SmartCard.State) : bool :=
  negb (SmartCard.imgRendered st).

End SmartCardView.

(* ===================================================================== *)
(** * Closed forms used to state further properties *)
(* ===================================================================== *)

(** The markdown fences removed and the ends trimmed, as the acquirer
    does before parsing. *)
Definition stripFences (text : string) : string :=
  JsString.trim (JsString.removeAll (JsString.removeAll text "```json") "```").

(** The value the Metadata Acquirer returns when it is called at trace
    [h]: the parsed answer, or the fallback. *)
Definition metadataValue (P : Platform) (url : string) (h : History) : JSON :=
  match generateContent P h url with
  | inr (Some text) =>
      if JsString.truthy text then
        match JSON_parse P (stripFences text) with
        | inr v => v
        | inl _ => metadataFallback P url
        end
      else metadataFallback P url
  | _ => metadataFallback P url
  end.

(** A property read off a value that is not [null]. *)
Definition propOf (v : JSON) (k : string) : JsValue :=
  match getProp v k with
  | inr x => x
  | inl _ => None
  end.

(** A favicon reference is the absent sentinel or an embedded image. *)
Definition absentOrImage (favicon : string) : Prop :=
  favicon = "" \/ JsString.startsWith favicon "data:image" = true.

(** No character of [s] is a backtick. *)
Fixpoint noBacktick (s : string) : bool :=
  match s with
  | EmptyString => true
  | String c s' => negb (Ascii.eqb c "`") && noBacktick s'
  end.

(** The downloads and alerts of a trace, in order: what the user sees of
    an export. *)
Fixpoint notices (h : History) : list Event :=
  match h with
  | [] => []
  | EvDownload f d :: rest => EvDownload f d :: notices rest
  | EvAlert m :: rest => EvAlert m :: notices rest
  | _ :: rest => notices rest
  end.

(** The card the assembler publishes for [processedUrl] from the state
    [a] it closed over, given what the acquisitions and the clock gave. *)
Definition assembledCard (a : AppState) (processedUrl hostname : string)
           (metadata : JSON) (qrDataUrl faviconBase64 : string) (t1 t2 : Z)
           (timestamp : string) : CardData :=
  {| url := processedUrl;
     domain := displayDomain hostname;
     title := propOf metadata "title";
     description := propOf metadata "description";
     screenshotUrl :=
       proxiedUrlAt t1 (microlinkUrl processedUrl (selectedViewport a) (websiteTheme a));
     backupScreenshotUrl :=
       Some (proxiedUrlAt t2 (mshotsUrl processedUrl (selectedViewport a)));
     faviconUrl := faviconBase64;
     qrCodeDataUrl := qrDataUrl;
     timestamp := timestamp |}.

(** The React state after a card was published: the card and the status
    [completed], everything else as in [a]. *)
Definition published (a : AppState) (card : CardData) : AppState :=
  {| urlInput := urlInput a; cardData := Some card;
     status := {| step := completed; message := None |};
     theme := theme a; websiteTheme := websiteTheme a;
     showSocialPreview := showSocialPreview a; socialImage := socialImage a;
     selectedViewport := selectedViewport a; cardRef := cardRef a |}.

(** The React state while a generation runs. *)
Definition analysing (a : AppState) : AppState :=
  {| urlInput := urlInput a; cardData := cardData a;
     status := {| step := fetching_metadata;
                  message := Some "Analyzing URL with Gemini..." |};
     theme := theme a; websiteTheme := websiteTheme a;
     showSocialPreview := showSocialPreview a; socialImage := socialImage a;
     selectedViewport := selectedViewport a; cardRef := cardRef a |}.

(** The React state after a failed generation. *)
Definition failed (a : AppState) : AppState :=
  {| urlInput := urlInput a; cardData := cardData a;
     status := {| step := error;
                  message := Some "Failed to generate card. Please try again." |};
     theme := theme a; websiteTheme := websiteTheme a;
     showSocialPreview := showSocialPreview a; socialImage := socialImage a;
     selectedViewport := selectedViewport a; cardRef := cardRef a |}.

(** [card] is what the assembler publishes when it is started in the
    React state [a]: the URL typed in [a] parses, the metadata is not
    [null], the favicon is absent or an embedded image, and the card is
    assembled from these and from the viewport and colour scheme of [a]. *)
Definition assembledBy (P : Platform) (a : AppState) (card : CardData) : Prop :=
  exists (hostname : string) (metadata : JSON) (qr favicon : string)
         (t1 t2 : Z) (ts : string),
    URL_hostname P (processUrl (urlInput a)) = inr hostname
    /\ metadata <> JNull
    /\ absentOrImage favicon
    /\ card = assembledCard a (processUrl (urlInput a)) hostname metadata
                qr favicon t1 t2 ts.

(** The text of the alert of [handleDownloadError]. *)
Definition downloadErrorAlert (err : Exn) : string :=
  "Could not generate image. Error: " ++ errorMessage err
    ++ ". 

This is often due to browser security blocking the image download.".

(** [s] begins with a white space character (of one, two or three
    bytes). *)
Definition startsWithSpace (s : string) : bool :=
  match s with
  | EmptyString => false
  | String c1 r1 =>
      JsString.isAsciiSpace c1 ||
      match r1 with
      | EmptyString => false
      | String c2 r2 =>
          JsString.isSpace2 c1 c2 ||
          match r2 with
          | EmptyString => false
          | String c3 _ => JsString.isSpace3 c1 c2 c3
          end
      end
  end.

(** The same on reversed bytes: [s], read backwards, ends with a white
    space character. *)
Definition startsWithSpace_rev (s : string) : bool :=
  match s with
  | EmptyString => false
  | String c1 r1 =>
      JsString.isAsciiSpace c1 ||
      match r1 with
      | EmptyString => false
      | String c2 r2 =>
          JsString.isSpace2 c2 c1 ||
          match r2 with
          | EmptyString => false
          | String c3 _ => JsString.isSpace3 c3 c2 c1
          end
      end
  end.



(** The React state after the preview dialog was opened on [dataUrl]. *)
Definition previewing (a : AppState) (dataUrl : string) : AppState :=
  {| urlInput := urlInput a; cardData := cardData a; status := status a;
     theme := theme a; websiteTheme := websiteTheme a;
     showSocialPreview := true; socialImage := dataUrl;
     selectedViewport := selectedViewport a; cardRef := cardRef a |}.

(** What holds of the React state wherever the application gets to. *)
Definition appInvariant (P : Platform) (a : AppState) : Prop :=
  isGenerating a = false
  /\ In (selectedViewport a) VIEWPORT_OPTIONS
  /\ (step (status a) = completed -> cardData a <> None)
  /\ (forall card, cardData a = Some card ->
        exists a0, In (selectedViewport a0) VIEWPORT_OPTIONS /\ assembledBy P a0 card).

(** A platform on which the metadata service answers [text], which parses
    to [parsed] once the fences are stripped to [body], and everything
    else is as on [Reference.answering]. *)
Definition answeringMetadata (text body : string) (parsed : JSON)
           (response : Response) (readerResult : option string) : Platform :=
  {| Date_now := fun h => (1700000000000 + Z.of_nat (List.length h))%Z;
     fetch := fun _ _ => inr response;
     FileReader_result := fun _ _ => readerResult;
     generateContent := fun _ _ => inr (Some text);
     JSON_parse := fun s =>
       if String.eqb s body then inr parsed
       else inl (JsError "Unexpected token");
     URL_hostname := Reference.hostname;
     QRCode_toDataURL := fun _ _ => inr "data:image/png;base64,QR";
     htmlToImage := fun _ _ _ => inr "data:image/png;base64,CARD";
     toLocaleDateString := fun _ => "Nov 14, 2023" |}.

(* ===================================================================== *)
(** * [App.tsx]: the three acquisitions on the event loop *)
(* ===================================================================== *)

(** [handleGenerate] starts three async calls and awaits
    [Promise.all] of their promises. Here each call is a task that runs
    from one [await] to the next; the platform settles the awaited
    promises one at a time, in an order of its choosing, and after each
    of these jobs [Promise.all] may resume the handler. What a request is
    answered with is decided when the request is made, by the oracles of
    the platform; only the moment it is delivered is left to the order. *)
Module Async.

(** What a suspended call awaits. *)
Inductive Awaited : Type :=
| OnGenerateContent (url : string)
| OnQRCode (text : string)
| OnFetch (url : string)
| OnBlob (url : string)
| OnFileReader (b : Blob).

(** An async call in flight: its promise is settled, or the call is
    suspended at an [await]. [resume h] runs it, from the trace [h] at the
    moment the awaited promise settles, up to its next [await] or to its
    end, and gives the trace it leaves and the state it is then in. *)
Inductive Task (A : Type) : Type :=
| Settled (r : Exn + A)
| Suspended (on : Awaited) (resume : History -> History * Task A).
Arguments Settled {A} r.
Arguments Suspended {A} on resume.

Definition isSettled {A} (t : Task A) : bool :=
  match t with Settled _ => true | Suspended _ _ => false end.

Definition fulfilled {A} (t : Task A) : option A :=
  match t with Settled (inr a) => Some a | _ => None end.

Definition rejected {A} (t : Task A) : option Exn :=
  match t with Settled (inl e) => Some e | _ => None end.

(** The three inputs of [Promise.all]. *)
Inductive Acquisition : Type := Metadata | QRCodeImage | Favicon.

(** The handler: suspended at [await Promise.all(...)], with the state
    it closed over, the processed URL and the host name; or returned. *)
Inductive Handler : Type :=
| Awaiting (a : AppState) (processedUrl hostname : string)
| Returned.

Record Loop : Type := {
  l_app : AppState;
  l_trace : History;
  metadataT : Task JSON;
  qrT : Task string;
  faviconT : Task string;
  handler : Handler
}.

Definition handlerReturned (L : Loop) : bool :=
  match handler L with Returned => true | Awaiting _ _ _ => false end.

Section Tasks.

Variable P : Platform.

(** [fetchMetadataWithGemini(url)] up to its [await]: the service is
    asked; when it answers, the call settles with the parsed answer or
    the fallback, never with a rejection. *)
Definition metadataTask (url : string) (h : History) : History * Task JSON :=
  ((h ++ [EvGenerateContent url])%list,
   Suspended (OnGenerateContent url)
     (fun h' => (h', Settled (inr (metadataValue P url h))))).

(** [QRCode.toDataURL(processedUrl, ...)]: a promise of the platform. *)
Definition qrTask (text : string) (h : History) : History * Task string :=
  ((h ++ [EvQRCode text])%list,
   Suspended (OnQRCode text) (fun h' => (h', Settled (QRCode_toDataURL P h text)))).

(** The loop of [fetchFaviconBase64] from one [await] to the next: the
    clock is read and the request made; when the response is there, a
    failed or refused one makes the loop go on with the next service,
    and an accepted one is read ([await response.blob()]) and converted
    (the promise of the [FileReader]). *)
Fixpoint faviconTask (services : list string) (h : History)
  : History * Task string :=
  match services with
  | [] => (h, Settled (inr ""))
  | serviceUrl :: rest =>
      let proxiedUrl := proxiedUrlAt (Date_now P h) serviceUrl in
      let response := fetch P (h ++ [EvDateNow])%list proxiedUrl in
      ((h ++ [EvDateNow; EvFetch proxiedUrl])%list,
       Suspended (OnFetch proxiedUrl)
         (fun h1 =>
            match response with
            | inl _ => faviconTask rest h1
            | inr resp =>
                if negb (ok resp) then faviconTask rest h1
                else
                  (h1,
                   Suspended (OnBlob proxiedUrl)
                     (fun h2 =>
                        match blob resp with
                        | inl _ => faviconTask rest h2
                        | inr b =>
                            if blobRejected b then faviconTask rest h2
                            else
                              ((h2 ++ [EvReadAsDataURL b])%list,
                               Suspended (OnFileReader b)
                                 (fun h3 =>
                                    (h3,
                                     Settled
                                       (inr (dataUriOrEmpty
                                               (FileReader_result P h2 b))))))
                        end))
            end))
  end.

(** [fetchFaviconBase64(domain, originalUrl)] up to its first [await]:
    the list of services is built first, outside the [try] of the loop,
    and [encodeURIComponent(originalUrl)] throws on a lone surrogate; the
    promise of the call is then rejected at once. *)
Definition fetchFaviconTask (domain originalUrl : string) (h : History)
  : History * Task string :=
  if JsString.hasLoneSurrogate originalUrl
  then (h, Settled (inl (JsError "URI malformed")))
  else faviconTask (faviconServices domain originalUrl) h.

(** What [handleGenerate] does once [Promise.all] has given it the three
    values: the rest of its [try] block. The favicon call has fulfilled
    then, so that [encodeURIComponent(processedUrl)] does not throw. *)
Definition assemble (a : AppState) (processedUrl hostname : string)
           (metadata : JSON) (qrDataUrl faviconBase64 : string) : M unit :=
  (primaryScreenshotUrl <-
     getProxiedUrl P (microlinkUrl processedUrl (selectedViewport a) (websiteTheme a)) ;;
   backupScreenshotUrl <-
     getProxiedUrl P (mshotsUrl processedUrl (selectedViewport a)) ;;
   title <- settle (getProp metadata "title") ;;
   description <- settle (getProp metadata "description") ;;
   timestamp <- call EvLocaleDate (fun h => inr (toLocaleDateString P h)) ;;
   let newCard :=
     {| url := processedUrl;
        domain := displayDomain hostname;
        title := title;
        description := description;
        screenshotUrl := primaryScreenshotUrl;
        backupScreenshotUrl := Some backupScreenshotUrl;
        faviconUrl := faviconBase64;
        qrCodeDataUrl := qrDataUrl;
        timestamp := timestamp |} in
   setCardData (Some newCard) ;;
   setStatus {| step := completed; message := None |})%handler.

(** The [catch] block of [handleGenerate]. *)
Definition caught : M unit :=
  setStatus {| step := error;
               message := Some "Failed to generate card. Please try again." |}.

(** The rejection [Promise.all] passes on, if an input has rejected. *)
Definition firstRejection (L : Loop) : option Exn :=
  match rejected (metadataT L) with
  | Some e => Some e
  | None =>
      match rejected (qrT L) with
      | Some e => Some e
      | None => rejected (faviconT L)
      end
  end.

(** The handler leaves the world [w] and returns. *)
Definition returning (L : Loop) (w : World) : Loop :=
  {| l_app := app w; l_trace := trace w;
     metadataT := metadataT L; qrT := qrT L; faviconT := faviconT L;
     handler := Returned |}.

(** After a job: [Promise.all] rejects as soon as one input has
    rejected and the handler runs its [catch]; it fulfils once the three
    inputs have and the handler runs the rest of its [try] block;
    otherwise the handler stays suspended. *)
Definition resumeHandler (L : Loop) : Loop :=
  match handler L with
  | Returned => L
  | Awaiting a processedUrl hostname =>
      match firstRejection L with
      | Some _ =>
          returning L (snd (caught {| app := l_app L; trace := l_trace L |}))
      | None =>
          match fulfilled (metadataT L), fulfilled (qrT L), fulfilled (faviconT L) with
          | Some metadata, Some qrDataUrl, Some faviconBase64 =>
              returning L
                (snd (try_catch
                        (assemble a processedUrl hostname metadata qrDataUrl
                           faviconBase64)
                        (fun _ => caught)
                        {| app := l_app L; trace := l_trace L |}))
          | _, _, _ => L
          end
      end
  end.

(** The first job of [handleGenerate]: up to [await Promise.all(...)],
    the three calls started one after the other, each up to its first
    [await], and then the reaction of [Promise.all] to an input that is
    rejected already. [inl] is the world the handler leaves when it
    returns before [Promise.all] (blank input, or a URL that does not
    parse). *)
Definition begin (w : World) : World + Loop :=
  let a := app w in
  if negb (JsString.truthy (JsString.trim (urlInput a))) then inl w
  else
    let processedUrl := processUrl (urlInput a) in
    let w1 :=
      snd (setStatus {| step := fetching_metadata;
                        message := Some "Analyzing URL with Gemini..." |} w) in
    match URL_hostname P processedUrl with
    | inl _ => inl (snd (caught w1))
    | inr hostname =>
        let domain := displayDomain hostname in
        let (h1, mt) := metadataTask processedUrl (trace w1) in
        let (h2, qt) := qrTask processedUrl h1 in
        let (h3, ft) := fetchFaviconTask domain processedUrl h2 in
        inr (resumeHandler
               {| l_app := app w1; l_trace := h3;
                  metadataT := mt; qrT := qt; faviconT := ft;
                  handler := Awaiting a processedUrl hostname |})
    end.

(** One job: the promise the acquisition [who] awaits settles, the
    acquisition runs to its next [await] or to its end, and
    [Promise.all] reacts. Nothing happens if [who] awaits nothing. *)
Definition deliver (who : Acquisition) (L : Loop) : Loop :=
  match who with
  | Metadata =>
      match metadataT L with
      | Settled _ => L
      | Suspended _ resume =>
          let (h, t) := resume (l_trace L) in
          resumeHandler
            {| l_app := l_app L; l_trace := h;
               metadataT := t; qrT := qrT L; faviconT := faviconT L;
               handler := handler L |}
      end
  | QRCodeImage =>
      match qrT L with
      | Settled _ => L
      | Suspended _ resume =>
          let (h, t) := resume (l_trace L) in
          resumeHandler
            {| l_app := l_app L; l_trace := h;
               metadataT := metadataT L; qrT := t; faviconT := faviconT L;
               handler := handler L |}
      end
  | Favicon =>
      match faviconT L with
      | Settled _ => L
      | Suspended _ resume =>
          let (h, t) := resume (l_trace L) in
          resumeHandler
            {| l_app := l_app L; l_trace := h;
               metadataT := metadataT L; qrT := qrT L; faviconT := t;
               handler := handler L |}
      end
  end.

(** The jobs of a schedule, in order. *)
Fixpoint run (schedule : list Acquisition) (L : Loop) : Loop :=
  match schedule with
  | [] => L
  | who :: rest => run rest (deliver who L)
  end.

(** The loop after [schedule], when the handler got as far as
    [Promise.all]. *)
Definition after (schedule : list Acquisition) (w : World) : option Loop :=
  match begin w with
  | inl _ => None
  | inr L => Some (run schedule L)
  end.

End Tasks.

(** A task that cannot reject: settled with a value, or suspended and
    again such a task however it is resumed. *)
Inductive neverRejects {A : Type} : Task A -> Prop :=
| neverRejects_settled : forall a, neverRejects (Settled (inr a))
| neverRejects_suspended : forall on resume,
    (forall h, neverRejects (snd (resume h))) ->
    neverRejects (Suspended on resume).

(** A task that is settled after at most [n] deliveries. *)
Inductive settlesWithin {A : Type} : nat -> Task A -> Prop :=
| settlesWithin_settled : forall n r, settlesWithin n (Settled r)
| settlesWithin_suspended : forall n on resume,
    (forall h, settlesWithin n (snd (resume h))) ->
    settlesWithin (S n) (Suspended on resume).

(** The task once the promise it awaits has settled, at the trace [h]. *)
Definition advance {A : Type} (t : Task A) (h : History) : Task A :=
  match t with
  | Settled _ => t
  | Suspended _ resume => snd (resume h)
  end.

(** Enough jobs to settle whatever is still pending: one for the
    metadata, one for the QR code, three for each favicon service. *)
Definition toTheEnd : list Acquisition :=
  Metadata :: QRCodeImage :: List.repeat Favicon 9.

Definition allSettled (L : Loop) : bool :=
  isSettled (metadataT L) && isSettled (qrT L) && isSettled (faviconT L).

Definition allFulfilled (L : Loop) : bool :=
  match fulfilled (metadataT L), fulfilled (qrT L), fulfilled (faviconT L) with
  | Some _, Some _, Some _ => true
  | _, _, _ => false
  end.

Definition someRejected (L : Loop) : bool :=
  match firstRejection L with Some _ => true | None => false end.

(** The handler is suspended exactly as long as [Promise.all] is
    pending, with the status it set before; it has returned with the
    status [error] when an input has rejected. [a1] is the React state
    the handler left when it suspended. *)
Definition inStep (a1 : AppState) (L : Loop) : Prop :=
  match handler L with
  | Awaiting _ _ _ =>
      allFulfilled L = false /\ someRejected L = false /\ l_app L = a1
  | Returned =>
      (allFulfilled L = true /\ someRejected L = false
       /\ (step (status (l_app L)) = completed \/ step (status (l_app L)) = error))
      \/ (someRejected L = true /\ step (status (l_app L)) = error)
  end.

(** What holds of the loop of a generation after any number of jobs.
    [wellFormed] tells whether the processed URL is free of lone
    surrogates. *)
Definition invariant (a1 : AppState) (wellFormed : bool) (L : Loop) : Prop :=
  inStep a1 L
  /\ neverRejects (metadataT L)
  /\ (wellFormed = true -> neverRejects (faviconT L))
  /\ settlesWithin 1 (metadataT L)
  /\ settlesWithin 1 (qrT L)
  /\ settlesWithin 9 (faviconT L).

(** What one sees of a loop: whether the handler has returned, the
    status, which of the metadata, QR and favicon acquisitions have
    settled, and the number of requests made to the favicon services. *)
Definition observe (L : Loop) : bool * Step * (bool * bool * bool) * nat :=
  (handlerReturned L, step (status (l_app L)),
   (isSettled (metadataT L), isSettled (qrT L), isSettled (faviconT L)),
   List.length (fetched (l_trace L))).

End Async.

(** A browser without network, as [Reference.offline], whose QR encoder
    rejects a text of more than 2331 bytes (the capacity of the largest
    QR code at error-correction level M). *)
Definition qrBounded : Platform :=
  {| Date_now := fun _ => 1700000000000%Z;
     fetch := fun _ _ => inl (JsError "Failed to fetch");
     FileReader_result := fun _ _ => None;
     generateContent := fun _ _ => inl (JsError "Failed to fetch");
     JSON_parse := fun _ => inl (JsError "Unexpected end of JSON input");
     URL_hostname := Reference.hostname;
     QRCode_toDataURL := fun _ text =>
       if 2331 <? String.length text
       then inl (JsError "The amount of data is too big to be stored in a QR Code")
       else inr "data:image/png;base64,QR";
     htmlToImage := fun _ _ _ => inr "data:image/png;base64,CARD";
     toLocaleDateString := fun _ => "Nov 14, 2023" |}.

(** An address of 2412 characters. *)
Definition longAddress : string :=
  "example.com/" ++ String.concat "" (List.repeat "0123456789" 240).

(* ===================================================================== *)
(** * Theorems *)
(* ===================================================================== *)

Example replace_first_only :
  JsString.replace "a.www.b.www.c" "www." "" = "a.b.www.c".
Proof. reflexivity. Qed.

Example removeAll_fences :
  JsString.removeAll "```json{}```" "```json" = "{}```".
Proof. reflexivity. Qed.

Example trim_mixed :
  JsString.trim (String (JsString.byte 194) (String (JsString.byte 160) "  a b
 ")) = "a b".
Proof. reflexivity. Qed.

Example encode_url :
  JsString.encodeURIComponent "https://a.io/?q=1&r=x y" =
  "https%3A%2F%2Fa.io%2F%3Fq%3D1%26r%3Dx%20y".
Proof. reflexivity. Qed.

Example ofZ_now : JsString.ofZ 1700000000000 = "1700000000000".
Proof. reflexivity. Qed.

Example hostname_of_example :
  Reference.hostname "https://www.Example.com:8080/path?q#f" = inr "www.example.com".
Proof. reflexivity. Qed.

Example hostname_invalid : 
  Reference.hostname "https://exa mple" = inl (JsError "Invalid URL").
Proof. reflexivity. Qed.

Example processUrl_schemeless : processUrl "  example.com " = "https://example.com".
Proof. reflexivity. Qed.

Example processUrl_keeps_scheme : processUrl "HTTP://example.com" = "HTTP://example.com".
Proof. reflexivity. Qed.

(* --------------------------------------------------------------------- *)
(** ** Strings *)
(* --------------------------------------------------------------------- *)

Section StringFacts.

Lemma append_inv_head (s a b : string) : s ++ a = s ++ b -> a = b.
Proof.
  induction s as [|c s IH]; simpl; intros H.
  - exact H.
  - injection H as H. now apply IH.
Qed.

Lemma append_assoc (a b c : string) : (a ++ b) ++ c = a ++ (b ++ c).
Proof.
  induction a as [|x a IH]; simpl; [reflexivity | now rewrite IH].
Qed.

(** Decimal printing loses nothing. *)
Lemma ofZ_inj (a b : Z) : JsString.ofZ a = JsString.ofZ b -> a = b.
Proof.
  unfold JsString.ofZ. intros H.
  apply DecimalZ.to_int_inj.
  assert (E : Some (Z.to_int a) = Some (Z.to_int b)).
  { rewrite <- (NilEmpty.isi (Z.to_int a)), <- (NilEmpty.isi (Z.to_int b)).
    now rewrite H. }
  now injection E.
Qed.

(** [decodeFront] undoes [encodeByte], whatever follows. *)
Lemma decodeFront_encodeByte (c : ascii) (r : string) :
  decodeFront (JsString.encodeByte c ++ r) = Some (c, r).
Proof.
  destruct c as [[] [] [] [] [] [] [] []]; reflexivity.
Qed.

(** An encoded byte never starts with the separator [&]. *)
Lemma encodeByte_not_amp (c : ascii) (r r' : string) :
  JsString.encodeByte c ++ r <> String "&" r'.
Proof.
  intros H.
  assert (D : decodeFront (JsString.encodeByte c ++ r) = decodeFront (String "&" r'))
    by now rewrite H.
  rewrite decodeFront_encodeByte in D. simpl in D.
  injection D as Hc Hr. subst c. discriminate H.
Qed.

(** Two encoded components, each followed by [&], are equal only when
    the components and what follows are. *)
Lemma encodeURIComponent_inj_amp (x y r r' : string) :
  JsString.encodeURIComponent x ++ String "&" r
  = JsString.encodeURIComponent y ++ String "&" r' ->
  x = y /\ r = r'.
Proof.
  revert y. induction x as [|c x IH]; intros [|d y]; simpl; intros H.
  - injection H as H. now split.
  - rewrite append_assoc in H. symmetry in H.
    now apply encodeByte_not_amp in H.
  - rewrite append_assoc in H. now apply encodeByte_not_amp in H.
  - rewrite !append_assoc in H.
    assert (D : decodeFront (JsString.encodeByte c
                               ++ JsString.encodeURIComponent x ++ String "&" r)
                = decodeFront (JsString.encodeByte d
                                 ++ JsString.encodeURIComponent y ++ String "&" r'))
      by now rewrite H.
    rewrite !decodeFront_encodeByte in D.
    injection D as Hc Hr. subst d.
    destruct (IH _ Hr) as [-> ->]. now split.
Qed.

End StringFacts.

(* --------------------------------------------------------------------- *)
(** ** Proxy Resolver *)
(* --------------------------------------------------------------------- *)

Section ProxyResolver.

Variable P : Platform.

(** One call reads the clock once; its token is that reading. *)
Lemma getProxiedUrl_run (target : string) (w : World) :
  getProxiedUrl P target w
  = (inr (proxiedUrlAt (Date_now P (trace w)) target),
     {| app := app w; trace := (trace w ++ [EvDateNow])%list |}).
Proof. reflexivity. Qed.

Lemma proxiedUrlAt_inj (t1 t2 : Z) (u1 u2 : string) :
  proxiedUrlAt t1 u1 = proxiedUrlAt t2 u2 -> u1 = u2 /\ t1 = t2.
Proof.
  unfold proxiedUrlAt. intros H.
  apply append_inv_head in H.
  change ("&output=png&n=" ++ JsString.ofZ t1)
    with (String "&" ("output=png&n=" ++ JsString.ofZ t1)) in H.
  change ("&output=png&n=" ++ JsString.ofZ t2)
    with (String "&" ("output=png&n=" ++ JsString.ofZ t2)) in H.
  apply encodeURIComponent_inj_amp in H. destruct H as [Hu Ht].
  apply append_inv_head in Ht. apply ofZ_inj in Ht. now split.
Qed.

(** The two screenshot services are different targets. *)
Lemma screenshot_targets_differ (processedUrl : string) (vp : Viewport) (th : Theme) :
  microlinkUrl processedUrl vp th <> mshotsUrl processedUrl vp.
Proof.
  unfold microlinkUrl, mshotsUrl. simpl. discriminate.
Qed.

End ProxyResolver.

(** C8, as amended: the cache-defeat token of a call of the Proxy
    Resolver is the clock reading at that call. Two proxied URLs coincide
    exactly when their targets and their clock readings do, so two calls
    for the same target give different URLs exactly when the clock has
    moved between them; and the primary and backup screenshot URLs of one
    generation always differ, because their targets differ, whatever the
    two tokens are. *)
Theorem proxied_url_token_is_clock_reading :
  (forall (P : Platform) (target : string) (w : World),
      getProxiedUrl P target w
      = (inr (proxiedUrlAt (Date_now P (trace w)) target),
         {| app := app w; trace := (trace w ++ [EvDateNow])%list |}))
  /\ (forall (t1 t2 : Z) (u1 u2 : string),
         proxiedUrlAt t1 u1 = proxiedUrlAt t2 u2 <-> (u1 = u2 /\ t1 = t2))
  /\ (forall (P : Platform) (target : string) (w : World) (u1 u2 : string),
         fst (resolveTwice P target w) = inr (u1, u2) ->
         (u1 = u2 <-> Date_now P (trace w) = Date_now P (trace w ++ [EvDateNow])%list))
  /\ (forall (t1 t2 : Z) (processedUrl : string) (vp : Viewport) (th : Theme),
         proxiedUrlAt t1 (microlinkUrl processedUrl vp th)
         <> proxiedUrlAt t2 (mshotsUrl processedUrl vp)).
Proof.
  split; [|split; [|split]].
  - intros. apply getProxiedUrl_run.
  - intros. split.
    + apply proxiedUrlAt_inj.
    + now intros [-> ->].
  - intros P target w u1 u2 H. cbn in H. injection H as <- <-. split.
    + intros H. now apply proxiedUrlAt_inj in H.
    + now intros ->.
  - intros t1 t2 processedUrl vp th H.
    apply proxiedUrlAt_inj in H. destruct H as [H _].
    now apply screenshot_targets_differ in H.
Qed.

(** C8, as stated, fails: two calls of the Proxy Resolver for the same
    target within one millisecond read the same clock value, carry the
    same token and return the same URL; and within one generation the
    primary and the backup screenshot URL carry the same token. *)
Lemma same_millisecond_same_token :
  fst (resolveTwice (Reference.offline 0) "https://s0.wp.com/x" (Reference.typed ""))
  = inr ("https://wsrv.nl/?url=https%3A%2F%2Fs0.wp.com%2Fx&output=png&n=1700000000000",
         "https://wsrv.nl/?url=https%3A%2F%2Fs0.wp.com%2Fx&output=png&n=1700000000000")
  /\ option_map
       (fun c => (screenshotUrl c, backupScreenshotUrl c))
       (cardData (app (snd (handleGenerate (Reference.offline 0)
                              (Reference.typed "example.com")))))
     = Some (proxiedUrlAt 1700000000000
               (microlinkUrl "https://example.com"
                  (selectedViewport initialApp) Light),
             Some (proxiedUrlAt 1700000000000
                     (mshotsUrl "https://example.com"
                        (selectedViewport initialApp)))).
Proof. split; vm_compute; reflexivity. Qed.

(* --------------------------------------------------------------------- *)
(** ** Display domain *)
(* --------------------------------------------------------------------- *)

Section DisplayDomain.

(** A leading [www.] is removed. *)
Lemma displayDomain_leading (rest : string) :
  displayDomain ("www." ++ rest) = rest.
Proof. destruct rest; reflexivity. Qed.

(** A host name without [www.] anywhere is kept. *)
Lemma displayDomain_without_www (hostname : string) :
  JsString.includes hostname "www." = false -> displayDomain hostname = hostname.
Proof.
  unfold displayDomain.
  induction hostname as [|c s IH]; intros H.
  - reflexivity.
  - cbn [JsString.includes] in H. apply orb_false_elim in H. destruct H as [Hp Hi].
    cbn [JsString.replace]. rewrite Hp. f_equal. now apply IH.
Qed.

Example displayDomain_scenario : displayDomain "www.example.com" = "example.com".
Proof. reflexivity. Qed.

Example handleGenerate_scenario_domain :
  option_map domain
    (cardData (app (snd (handleGenerate (Reference.offline 0)
                           (Reference.typed "https://www.example.com/path")))))
  = Some "example.com".
Proof. vm_compute. reflexivity. Qed.

(** The replacement is not anchored: a [www.] further in is removed too. *)
Example displayDomain_inner_www :
  displayDomain "api.www.example.com" = "api.example.com"
  /\ displayDomain "wwww.example.com" = "wexample.com".
Proof. split; reflexivity. Qed.

End DisplayDomain.

(** C6: the display domain is meant to be the host name without a leading
    [www.], and never to start with [www.]. On the input
    [https://www.www.example.com] the assembler publishes a card whose
    domain is [www.example.com]: only the first [www.] is removed, and the
    result still starts with [www.]. *)
Theorem displayDomain_can_start_with_www :
  option_map domain
    (cardData (app (snd (handleGenerate (Reference.offline 0)
                           (Reference.typed "https://www.www.example.com")))))
  = Some "www.example.com"
  /\ displayDomain "www.www.example.com" = "www.example.com"
  /\ JsString.startsWith (displayDomain "www.www.example.com") "www." = true.
Proof. repeat split; vm_compute; reflexivity. Qed.

(* --------------------------------------------------------------------- *)
(** ** Screenshot fallback *)
(* --------------------------------------------------------------------- *)

Section Fallback.

Import SmartCard.

Variable data : CardData.

Lemma truthy_nonempty (s : string) : s <> "" -> JsString.truthy s = true.
Proof. destruct s; [congruence | reflexivity]. Qed.

Lemma phase_Unavailable (st : State) :
  phase data st = Unavailable <-> imageError st = true.
Proof.
  unfold phase. destruct (imageError st); [tauto|].
  destruct (negb (imageLoading st)); [split; discriminate|].
  destruct (String.eqb _ _); split; discriminate.
Qed.

(** A new record starts the machine on the primary source, pending. *)
Lemma onDataChange_phase (st : State) :
  phase data (onDataChange (Some data) st) = PendingPrimary.
Proof. unfold phase. simpl. now rewrite String.eqb_refl. Qed.

(** Loading never raises the failure flag nor changes the source. *)
Lemma handleLoad_keeps (st : State) :
  imageError (handleLoad st) = imageError st
  /\ currentScreenshotUrl (handleLoad st) = currentScreenshotUrl st.
Proof. now split. Qed.

(** Without failure flag, a run that raises it saw a load failure. *)
Lemma unavailable_needs_failure (evs : list ImgEvent) :
  forall st st', run data st evs st' ->
    imageError st = false -> imageError st' = true -> 1 <= failures evs.
Proof.
  induction evs as [|ev evs IH]; intros st st' Hrun Hst Hst'.
  - inversion Hrun; subst. congruence.
  - inversion Hrun as [|? ? ? ? ? Hstep Hrest]; subst.
    inversion Hstep; subst.
    destruct ev; simpl.
    + apply (IH _ _ Hrest); [exact Hst | exact Hst'].
    + lia.
Qed.

Section WithBackup.

Variable b : string.
Hypothesis Hbackup : backupScreenshotUrl data = Some b.
Hypothesis Hb : b <> "".

(** On the primary, a failure switches to the backup and changes
    nothing else. *)
Lemma handleScreenshotError_on_primary (st : State) :
  currentScreenshotUrl st = screenshotUrl data ->
  handleScreenshotError data st
  = {| imageError := imageError st; faviconError := faviconError st;
       imageLoading := imageLoading st; currentScreenshotUrl := b |}.
Proof.
  intros Hcur. unfold handleScreenshotError.
  rewrite Hbackup, (truthy_nonempty _ Hb), Hcur, String.eqb_refl.
  reflexivity.
Qed.

(** Off the primary, a failure is final. *)
Lemma handleScreenshotError_off_primary (st : State) :
  currentScreenshotUrl st <> screenshotUrl data ->
  handleScreenshotError data st
  = {| imageError := true; faviconError := faviconError st;
       imageLoading := false;
       currentScreenshotUrl := currentScreenshotUrl st |}.
Proof.
  intros Hcur. unfold handleScreenshotError.
  rewrite Hbackup. apply String.eqb_neq in Hcur. rewrite Hcur.
  now rewrite andb_false_r.
Qed.

(** From the primary, the failure flag takes two load failures. *)
Lemma unavailable_needs_two_failures (evs : list ImgEvent) :
  forall st st', run data st evs st' ->
    imageError st = false ->
    currentScreenshotUrl st = screenshotUrl data ->
    imageError st' = true -> 2 <= failures evs.
Proof.
  induction evs as [|ev evs IH]; intros st st' Hrun Hst Hcur Hst'.
  - inversion Hrun; subst. congruence.
  - inversion Hrun as [|? ? ? ? ? Hstep Hrest]; subst.
    inversion Hstep; subst.
    destruct ev; simpl in *.
    + apply (IH _ _ Hrest); assumption.
    + rewrite (handleScreenshotError_on_primary _ Hcur) in Hrest.
      apply unavailable_needs_failure in Hrest; simpl; [lia | assumption..].
Qed.

(** Off the primary, no event switches the source again. *)
Lemma no_switch_off_primary (evs : list ImgEvent) :
  forall st, currentScreenshotUrl st <> screenshotUrl data ->
    switches data st evs = 0.
Proof.
  induction evs as [|ev evs IH]; intros st Hcur; [reflexivity|].
  cbn [switches]. rewrite IH.
  - destruct ev; simpl; [reflexivity|].
    unfold canFallBack. rewrite Hbackup.
    apply String.eqb_neq in Hcur. rewrite Hcur.
    now rewrite andb_false_r.
  - destruct ev; simpl; [exact Hcur|].
    now rewrite (handleScreenshotError_off_primary _ Hcur).
Qed.

(** A run that starts with the failure of the primary switches once. *)
Lemma one_switch_after_primary_failure (evs : list ImgEvent) (st : State) :
  b <> screenshotUrl data ->
  currentScreenshotUrl st = screenshotUrl data ->
  switches data st (Error :: evs) = 1.
Proof.
  intros Hne Hcur. cbn [switches handle switched].
  rewrite no_switch_off_primary.
  - unfold canFallBack.
    now rewrite Hbackup, (truthy_nonempty _ Hb), Hcur, String.eqb_refl.
  - now rewrite (handleScreenshotError_on_primary _ Hcur).
Qed.

End WithBackup.

(** Without a backup, a failure is final. *)
Lemma handleScreenshotError_no_backup (st : State) :
  backupScreenshotUrl data = None \/ backupScreenshotUrl data = Some "" ->
  handleScreenshotError data st
  = {| imageError := true; faviconError := faviconError st;
       imageLoading := false;
       currentScreenshotUrl := currentScreenshotUrl st |}.
Proof.
  unfold handleScreenshotError. now intros [-> | ->].
Qed.

End Fallback.

(** C2: on a record with a primary and a backup screenshot reference, the
    failure of the primary switches the active source to the backup and
    leaves the machine pending; the Unavailable state is reached only
    after a second load failure, that of the backup; a run that starts
    with the failure of the primary switches exactly once, and the
    failure of the backup is final (the backup being another URL than the
    primary, as it is in every record the assembler builds). On a record
    without backup reference the failure of the primary leads to
    Unavailable at once. *)
Theorem screenshot_fallback_machine (data : CardData) (st : SmartCard.State) :
  SmartCard.phase data (SmartCard.onDataChange (Some data) st)
  = SmartCard.PendingPrimary
  /\ (forall b : string,
         backupScreenshotUrl data = Some b -> b <> "" ->
         SmartCard.handleScreenshotError data (SmartCard.onDataChange (Some data) st)
         = {| SmartCard.imageError := false; SmartCard.faviconError := false;
              SmartCard.imageLoading := true; SmartCard.currentScreenshotUrl := b |}
         /\ (forall evs st',
                SmartCard.run data (SmartCard.onDataChange (Some data) st) evs st' ->
                SmartCard.phase data st' = SmartCard.Unavailable ->
                2 <= SmartCard.failures evs)
         /\ (b <> screenshotUrl data ->
             SmartCard.phase data
               (SmartCard.handleScreenshotError data
                  (SmartCard.onDataChange (Some data) st))
             = SmartCard.PendingBackup
             /\ (forall evs,
                    SmartCard.switches data (SmartCard.onDataChange (Some data) st)
                      (SmartCard.Error :: evs) = 1)
             /\ SmartCard.phase data
                  (SmartCard.handleScreenshotError data
                     (SmartCard.handleScreenshotError data
                        (SmartCard.onDataChange (Some data) st)))
                = SmartCard.Unavailable))
  /\ (backupScreenshotUrl data = None \/ backupScreenshotUrl data = Some "" ->
      SmartCard.phase data
        (SmartCard.handleScreenshotError data (SmartCard.onDataChange (Some data) st))
      = SmartCard.Unavailable
      /\ SmartCard.imageLoading
           (SmartCard.handleScreenshotError data (SmartCard.onDataChange (Some data) st))
         = false).
Proof.
  split; [apply onDataChange_phase|]. split.
  - intros b Hbackup Hb.
    assert (H1 : SmartCard.handleScreenshotError data
                   (SmartCard.onDataChange (Some data) st)
                 = {| SmartCard.imageError := false; SmartCard.faviconError := false;
                      SmartCard.imageLoading := true;
                      SmartCard.currentScreenshotUrl := b |}).
    { now rewrite (handleScreenshotError_on_primary data b Hbackup Hb). }
    split; [exact H1|]. split.
    + intros evs st' Hrun Hph. apply phase_Unavailable in Hph.
      now apply (unavailable_needs_two_failures data b Hbackup Hb evs _ _ Hrun).
    + intros Hne. rewrite H1. split; [|split].
      * unfold SmartCard.phase. simpl.
        apply String.eqb_neq in Hne. now rewrite Hne.
      * intros evs.
        now apply (one_switch_after_primary_failure data b Hbackup Hb).
      * apply phase_Unavailable.
        now rewrite (handleScreenshotError_off_primary data b Hbackup).
  - intros Hno. rewrite (handleScreenshotError_no_backup data _ Hno).
    split; [now apply phase_Unavailable | reflexivity].
Qed.

Lemma screenshot_fallback_machine_witness :
  SmartCard.phase Reference.exampleCard
    (SmartCard.handleScreenshotError Reference.exampleCard
       (SmartCard.onDataChange (Some Reference.exampleCard) SmartCard.initial))
  = SmartCard.PendingBackup
  /\ SmartCard.phase Reference.exampleCard
       (SmartCard.handleScreenshotError Reference.exampleCard
          (SmartCard.handleScreenshotError Reference.exampleCard
             (SmartCard.onDataChange (Some Reference.exampleCard) SmartCard.initial)))
     = SmartCard.Unavailable.
Proof.
  destruct (screenshot_fallback_machine Reference.exampleCard SmartCard.initial)
    as [_ [H _]].
  destruct (H "https://wsrv.nl/?url=backup&output=png&n=2") as [_ [_ H3]].
  - reflexivity.
  - discriminate.
  - destruct H3 as [Hp [_ Hu]].
    + discriminate.
    + split; [exact Hp | exact Hu].
Defined.

(* --------------------------------------------------------------------- *)
(** ** Image export *)
(* --------------------------------------------------------------------- *)

(** Unfolds a handler of the export pipeline down to the answers of the
    renderer. *)
Ltac export_run :=
  cbv beta iota delta
    [try_catch bind ret throw call settle getApp modifyApp render generateImage
     triggerDownload handleDownloadError setSocialImage setShowSocialPreview];
  cbn [app trace fst snd].

(** Splits on every answer of the renderer that is left, then reads the
    trace off. *)
Ltac export_cases Hcard :=
  repeat match goal with
    | |- context [match htmlToImage ?P ?h ?f ?o with _ => _ end] =>
        destruct (htmlToImage P h f o); cbn [app trace fst snd]
    end;
  rewrite ?Hcard; cbn [app trace fst snd];
  rewrite <- ?app_assoc; cbn [List.app]; eexists; reflexivity.

Section ExportFacts.

Variable P : Platform.

(** A capture that succeeds at once is the only one. *)
Lemma generateImage_first_attempt (node : Node) (options : Options) (format : Format)
      (w : World) (dataUrl : string) :
  htmlToImage P (trace w) format (exportConfig options) = inr dataUrl ->
  generateImage P node options format w
  = (inr dataUrl,
     {| app := app w;
        trace := (trace w ++ [EvRender format (exportConfig options)])%list |}).
Proof.
  intros H. unfold generateImage, try_catch, render, call. now rewrite H.
Qed.

(** [generateImage] asks for one capture or for two, never more. *)
Lemma generateImage_at_most_two (node : Node) (options : Options) (format : Format)
      (w : World) :
  let w' := snd (generateImage P node options format w) in
  app w' = app w
  /\ (trace w' = (trace w ++ [EvRender format (exportConfig options)])%list
      \/ trace w'
         = (trace w ++ [EvRender format (exportConfig options);
                        EvRender format (withSkipFonts (exportConfig options))])%list).
Proof.
  unfold generateImage, try_catch, render, call. cbn [trace app].
  destruct (htmlToImage P (trace w) format (exportConfig options)); cbn [snd].
  - destruct (htmlToImage P _ format (withSkipFonts (exportConfig options)));
      cbn [snd app trace]; (split; [reflexivity | right; now rewrite <- app_assoc]).
  - split; [reflexivity | now left].
Qed.

(** The download handler captures the pre-warm first and the real image
    next, whatever the pre-warm gave. *)
Lemma handleDownloadPng_prewarms (w : World) (node : Node) (card : CardData) :
  cardRef (app w) = Some node -> cardData (app w) = Some card ->
  exists rest,
    trace (snd (handleDownloadPng P w))
    = (trace w ++ EvRender png prewarmOptions
               :: EvRender png (exportConfig downloadPngOptions) :: rest)%list.
Proof.
  intros Href Hcard.
  cbv beta iota delta [handleDownloadPng bind getApp]. rewrite Href, Hcard.
  export_run.
  destruct (htmlToImage P (trace w) png prewarmOptions) as [e0|d0];
    export_cases Hcard.
Qed.

(** The preview handler starts with the real capture. *)
Lemma handleSocialPreview_captures_at_once (w : World) (node : Node) (card : CardData) :
  cardRef (app w) = Some node -> cardData (app w) = Some card ->
  exists rest,
    trace (snd (handleSocialPreview P w))
    = (trace w ++ EvRender png (exportConfig socialPreviewOptions) :: rest)%list.
Proof.
  intros Href Hcard.
  cbv beta iota delta [handleSocialPreview bind getApp]. rewrite Href, Hcard.
  export_run. export_cases Hcard.
Qed.

End ExportFacts.

(** C3: when the first capture of an export throws, [generateImage] asks
    for exactly one more capture, of the same format and with the same
    configuration except that fonts are skipped; its outcome is the
    outcome of the export, so a second failure reaches the caller as it
    is; and nothing else is asked of the renderer. *)
Theorem generateImage_retries_once_without_fonts
        (P : Platform) (node : Node) (options : Options) (format : Format)
        (w : World) (e1 : Exn) :
  htmlToImage P (trace w) format (exportConfig options) = inl e1 ->
  generateImage P node options format w
  = (htmlToImage P (trace w ++ [EvRender format (exportConfig options)])%list
       format (withSkipFonts (exportConfig options)),
     {| app := app w;
        trace := (trace w ++ [EvRender format (exportConfig options);
                              EvRender format (withSkipFonts (exportConfig options))])%list |})
  /\ skipFonts (withSkipFonts (exportConfig options)) = Some true
  /\ (forall err2,
         htmlToImage P (trace w ++ [EvRender format (exportConfig options)])%list
           format (withSkipFonts (exportConfig options)) = inl err2 ->
         fst (generateImage P node options format w) = inl err2).
Proof.
  intros H.
  assert (E : generateImage P node options format w
              = (htmlToImage P (trace w ++ [EvRender format (exportConfig options)])%list
                   format (withSkipFonts (exportConfig options)),
                 {| app := app w;
                    trace := (trace w ++ [EvRender format (exportConfig options);
                                          EvRender format
                                            (withSkipFonts (exportConfig options))])%list |})).
  { unfold generateImage, try_catch, render, call. rewrite H. cbn [trace app].
    destruct (htmlToImage P _ format (withSkipFonts (exportConfig options)));
      now rewrite <- app_assoc. }
  split; [exact E|]. split; [reflexivity|].
  intros err2 H2. now rewrite E, H2.
Qed.

Lemma generateImage_retries_once_without_fonts_witness :
  generateImage (Reference.offline 2) CardNode downloadSvgOptions svg Reference.showing
  = (inl (JsError "Failed to fetch font"),
     {| app := app Reference.showing;
        trace := [EvRender svg (exportConfig downloadSvgOptions);
                  EvRender svg (withSkipFonts (exportConfig downloadSvgOptions))] |}).
Proof.
  destruct (generateImage_retries_once_without_fonts
              (Reference.offline 2) CardNode downloadSvgOptions svg Reference.showing
              (JsError "Failed to fetch font")) as [E _].
  - reflexivity.
  - exact E.
Defined.

(** C7: every export is meant to start with a discardable pre-warm
    capture. The PNG download does; the inline preview does not: its
    first and only capture is the real one. *)
Theorem handleSocialPreview_has_no_prewarm :
  captures (trace (snd (handleSocialPreview (Reference.offline 0) Reference.showing)))
  = [(png, exportConfig socialPreviewOptions)]
  /\ captures (trace (snd (handleDownloadPng (Reference.offline 0) Reference.showing)))
     = [(png, prewarmOptions); (png, exportConfig downloadPngOptions)]
  /\ captures (trace (snd (handleDownloadSvg (Reference.offline 0) Reference.showing)))
     = [(svg, exportConfig downloadSvgOptions)].
Proof. repeat split; vm_compute; reflexivity. Qed.

(* --------------------------------------------------------------------- *)
(** ** Favicon Acquirer *)
(* --------------------------------------------------------------------- *)

Section FaviconFacts.

Variable P : Platform.

Lemma fetched_app (h1 h2 : History) :
  fetched (h1 ++ h2)%list = (fetched h1 ++ fetched h2)%list.
Proof.
  induction h1 as [|ev h1 IH]; [reflexivity|].
  destruct ev; simpl; now rewrite IH.
Qed.

(** Each refused candidate adds one request to the trace. *)
Lemma fetched_traceAfterRefused (services : list string) :
  forall h, List.length (fetched (traceAfterRefused P h services))
            = List.length (fetched h) + List.length services.
Proof.
  induction services as [|s rest IH]; intros h; simpl.
  - lia.
  - rewrite IH, fetched_app, length_app. simpl. lia.
Qed.

(** A refused candidate makes the loop continue. *)
Lemma faviconCandidate_refused (s : string) (w : World) :
  responseRefused
    (fetch P (trace w ++ [EvDateNow])%list (proxiedUrlAt (Date_now P (trace w)) s))
  = true ->
  faviconCandidate P s w
  = (inr Continue,
     {| app := app w;
        trace := (trace w ++ [EvDateNow;
                              EvFetch (proxiedUrlAt (Date_now P (trace w)) s)])%list |}).
Proof.
  intros H.
  cbv beta iota delta
    [faviconCandidate faviconCandidate_try try_catch bind getProxiedUrl call ret settle].
  cbn [app trace].
  unfold responseRefused in H.
  destruct (fetch P _ _) as [e|resp]; cbn [app trace].
  - now rewrite <- app_assoc.
  - destruct (ok resp); cbn [negb] in *.
    + destruct (blob resp) as [e|b]; cbn [app trace].
      * now rewrite <- app_assoc.
      * cbn [orb] in H. rewrite H. now rewrite <- app_assoc.
    + now rewrite <- app_assoc.
Qed.

(** An accepted candidate ends the loop with what the conversion gave. *)
Lemma faviconCandidate_accepted (s : string) (w : World) (resp : Response) (b : Blob) :
  fetch P (trace w ++ [EvDateNow])%list (proxiedUrlAt (Date_now P (trace w)) s)
  = inr resp ->
  ok resp = true -> blob resp = inr b -> blobRejected b = false ->
  faviconCandidate P s w
  = (inr (Return
            (dataUriOrEmpty
               (FileReader_result P
                  (trace w ++ [EvDateNow;
                               EvFetch (proxiedUrlAt (Date_now P (trace w)) s)])%list
                  b))),
     {| app := app w;
        trace := (trace w ++ [EvDateNow;
                              EvFetch (proxiedUrlAt (Date_now P (trace w)) s);
                              EvReadAsDataURL b])%list |}).
Proof.
  intros Hf Hok Hblob Hb.
  cbv beta iota delta
    [faviconCandidate faviconCandidate_try try_catch bind getProxiedUrl call ret settle].
  cbn [app trace].
  rewrite Hf, Hok. cbn [negb]. rewrite Hblob, Hb. cbn [app trace].
  now rewrite <- !app_assoc.
Qed.

(** One candidate never throws. *)
Lemma faviconCandidate_total (s : string) (w : World) :
  exists r w', faviconCandidate P s w = (inr r, w') /\ app w' = app w.
Proof.
  cbv beta iota delta
    [faviconCandidate faviconCandidate_try try_catch bind getProxiedUrl call ret settle].
  cbn [app trace].
  destruct (fetch P _ _) as [e|resp]; cbn [app trace].
  - do 2 eexists. split; reflexivity.
  - destruct (negb (ok resp)).
    + do 2 eexists. split; reflexivity.
    + destruct (blob resp) as [e|b].
      * do 2 eexists. split; reflexivity.
      * destruct (blobRejected b); do 2 eexists; split; reflexivity.
Qed.

(** The loop never throws and leaves the application state alone. *)
Lemma faviconLoop_total (services : list string) :
  forall w, exists v w', faviconLoop P services w = (inr v, w') /\ app w' = app w.
Proof.
  induction services as [|s rest IH]; intros w.
  - exists "", w. now split.
  - cbn [faviconLoop]. unfold bind.
    destruct (faviconCandidate_total s w) as [r [w1 [E Ha]]]. rewrite E.
    destruct r as [|v].
    + destruct (IH w1) as [v [w2 [E2 Ha2]]].
      exists v, w2. split; [exact E2 | congruence].
    + exists v, w1. now split.
Qed.

(** Refused candidates in front of the list are passed over. *)
Lemma faviconLoop_skip_refused (pre rest : list string) :
  forall w,
    refusedInTurn P (trace w) pre ->
    faviconLoop P (pre ++ rest) w
    = faviconLoop P rest
        {| app := app w; trace := traceAfterRefused P (trace w) pre |}.
Proof.
  induction pre as [|s pre IH]; intros w H.
  - now destruct w.
  - destruct H as [Hs Hrest].
    cbn [List.app faviconLoop traceAfterRefused]. unfold bind.
    rewrite (faviconCandidate_refused s w Hs).
    now rewrite IH.
Qed.

(** When every candidate of a list is refused, the loop runs it to its
    end and returns the empty string. *)
Lemma faviconLoop_all_refused (services : list string) (w : World) :
  refusedInTurn P (trace w) services ->
  faviconLoop P services w
  = (inr "", {| app := app w; trace := traceAfterRefused P (trace w) services |}).
Proof.
  intros H. rewrite <- (app_nil_r services) at 1.
  now rewrite (faviconLoop_skip_refused services [] w H).
Qed.

Lemma notImageDataUri_empty (result : option string) :
  notImageDataUri result = true -> dataUriOrEmpty result = "".
Proof.
  destruct result as [r|]; [|reflexivity]. simpl.
  intros H. apply negb_true_iff in H. rewrite H.
  now rewrite andb_false_r.
Qed.

(** The Favicon Acquirer never raises to its caller. *)
Lemma fetchFaviconBase64_total (domain originalUrl : string) (w : World) :
  exists v w',
    fetchFaviconBase64 P domain originalUrl w = (inr v, w') /\ app w' = app w.
Proof. apply faviconLoop_total. Qed.

End FaviconFacts.

(** C5: when the response to each of the three favicon requests is a
    refused one (the request fails, the status is not a success, or the
    body is too small or declared as text or HTML), the Favicon Acquirer
    returns the empty string as a value, without raising, after three
    requests. *)
Theorem fetchFaviconBase64_all_refused
        (P : Platform) (domain originalUrl : string) (w : World) :
  refusedInTurn P (trace w) (faviconServices domain originalUrl) ->
  fetchFaviconBase64 P domain originalUrl w
  = (inr "",
     {| app := app w;
        trace := traceAfterRefused P (trace w) (faviconServices domain originalUrl) |})
  /\ List.length
       (fetched (traceAfterRefused P (trace w) (faviconServices domain originalUrl)))
     = List.length (fetched (trace w)) + 3.
Proof.
  intros H. split.
  - now apply faviconLoop_all_refused.
  - now rewrite fetched_traceAfterRefused.
Qed.

Lemma fetchFaviconBase64_all_refused_witness :
  fst (fetchFaviconBase64 (Reference.answering Reference.notFound None)
         "example.com" "https://example.com" (Reference.typed "example.com"))
  = inr "".
Proof.
  destruct (fetchFaviconBase64_all_refused
              (Reference.answering Reference.notFound None)
              "example.com" "https://example.com" (Reference.typed "example.com"))
    as [E _].
  - repeat split.
  - now rewrite E.
Defined.

(** C10: when the candidates before [s] are refused and the response for
    [s] passes the status, size and content-type checks, but the
    conversion of its body gives no string that begins with [data:image],
    the Favicon Acquirer returns the empty string at once: the trace ends
    with the conversion for [s], and none of the candidates after [s] is
    requested. *)
Theorem fetchFaviconBase64_failed_conversion_stops
        (P : Platform) (domain originalUrl : string) (w : World)
        (pre post : list string) (s : string) (resp : Response) (b : Blob) :
  faviconServices domain originalUrl = (pre ++ s :: post)%list ->
  refusedInTurn P (trace w) pre ->
  fetch P (traceAfterRefused P (trace w) pre ++ [EvDateNow])%list
    (proxiedUrlAt (Date_now P (traceAfterRefused P (trace w) pre)) s) = inr resp ->
  ok resp = true ->
  blob resp = inr b ->
  blobRejected b = false ->
  notImageDataUri
    (FileReader_result P
       (traceAfterRefused P (trace w) pre
          ++ [EvDateNow;
              EvFetch (proxiedUrlAt (Date_now P (traceAfterRefused P (trace w) pre)) s)])%list
       b) = true ->
  fetchFaviconBase64 P domain originalUrl w
  = (inr "",
     {| app := app w;
        trace :=
          (traceAfterRefused P (trace w) pre
             ++ [EvDateNow;
                 EvFetch (proxiedUrlAt (Date_now P (traceAfterRefused P (trace w) pre)) s);
                 EvReadAsDataURL b])%list |})
  /\ List.length (fetched (trace (snd (fetchFaviconBase64 P domain originalUrl w))))
     = List.length (fetched (trace w)) + List.length pre + 1.
Proof.
  intros Hlist Hpre Hf Hok Hblob Hb Hconv.
  assert (E : fetchFaviconBase64 P domain originalUrl w
              = (inr "",
                 {| app := app w;
                    trace :=
                      (traceAfterRefused P (trace w) pre
                         ++ [EvDateNow;
                             EvFetch (proxiedUrlAt
                                        (Date_now P (traceAfterRefused P (trace w) pre)) s);
                             EvReadAsDataURL b])%list |})).
  { unfold fetchFaviconBase64. rewrite Hlist.
    rewrite (faviconLoop_skip_refused P pre (s :: post) w Hpre).
    cbn [faviconLoop]. unfold bind.
    rewrite (faviconCandidate_accepted P s
               {| app := app w; trace := traceAfterRefused P (trace w) pre |}
               resp b Hf Hok Hblob Hb).
    cbn [app trace]. unfold ret.
    now rewrite (notImageDataUri_empty _ Hconv). }
  split; [exact E|].
  rewrite E. cbn [snd trace].
  rewrite fetched_app, length_app, fetched_traceAfterRefused. simpl. lia.
Qed.

Lemma fetchFaviconBase64_failed_conversion_stops_witness :
  fst (fetchFaviconBase64
         (Reference.answering Reference.pngBody (Some "data:text/html;base64,AAAA"))
         "example.com" "https://example.com" (Reference.typed "example.com"))
  = inr ""
  /\ List.length
       (fetched (trace (snd (fetchFaviconBase64
                               (Reference.answering Reference.pngBody
                                  (Some "data:text/html;base64,AAAA"))
                               "example.com" "https://example.com"
                               (Reference.typed "example.com")))))
     = 1.
Proof.
  destruct (fetchFaviconBase64_failed_conversion_stops
              (Reference.answering Reference.pngBody (Some "data:text/html;base64,AAAA"))
              "example.com" "https://example.com" (Reference.typed "example.com")
              []
              [ "https://www.google.com/s2/favicons?domain=example.com&sz=128";
                "https://icons.duckduckgo.com/ip3/example.com.ico" ]
              "https://t2.gstatic.com/faviconV2?client=SOCIAL&type=FAVICON&fallback_opts=TYPE,SIZE,URL&url=https%3A%2F%2Fexample.com&size=128"
              Reference.pngBody
              {| blob_size := 2048; blob_type := "image/png" |})
    as [E L].
  - reflexivity.
  - exact I.
  - reflexivity.
  - reflexivity.
  - reflexivity.
  - reflexivity.
  - reflexivity.
  - split; [now rewrite E | exact L].
Defined.

(* --------------------------------------------------------------------- *)
(** ** Metadata Acquirer *)
(* --------------------------------------------------------------------- *)

Section MetadataFacts.

Variable P : Platform.

(** The [catch] block returns the fallback and cannot throw. *)
Lemma fetchMetadata_catch_run (url : string) (e : Exn) (w : World) :
  fetchMetadata_catch P url e w = (inr (metadataFallback P url), w).
Proof.
  unfold fetchMetadata_catch, metadataFallback, try_catch, bind, settle, ret.
  now destruct (URL_hostname P url).
Qed.

(** The acquirer never throws, and only asks the service once. *)
Lemma fetchMetadataWithGemini_total (url : string) (w : World) :
  exists v,
    fetchMetadataWithGemini P url w
    = (inr v, {| app := app w; trace := (trace w ++ [EvGenerateContent url])%list |}).
Proof.
  unfold fetchMetadataWithGemini, try_catch, fetchMetadata_try, bind, call.
  cbn [app trace].
  destruct (generateContent P (trace w) url) as [e|[text|]].
  - rewrite fetchMetadata_catch_run. now eexists.
  - destruct (negb (JsString.truthy text)).
    + unfold throw. rewrite fetchMetadata_catch_run. now eexists.
    + unfold settle. destruct (JSON_parse P _).
      * rewrite fetchMetadata_catch_run. now eexists.
      * now eexists.
  - unfold throw. rewrite fetchMetadata_catch_run. now eexists.
Qed.

(** A text that parses is returned as parsed, whatever its shape. *)
Lemma fetchMetadataWithGemini_parsed (url text : string) (v : JSON) (w : World) :
  generateContent P (trace w) url = inr (Some text) ->
  text <> "" ->
  JSON_parse P
    (JsString.trim (JsString.removeAll (JsString.removeAll text "```json") "```"))
  = inr v ->
  fst (fetchMetadataWithGemini P url w) = inr v.
Proof.
  intros Hg Ht Hp.
  unfold fetchMetadataWithGemini, try_catch, fetchMetadata_try, bind, call.
  rewrite Hg. destruct text as [|c text]; [congruence|].
  cbn [JsString.truthy negb]. unfold settle. now rewrite Hp.
Qed.

End MetadataFacts.




(* --------------------------------------------------------------------- *)
(** ** Card Assembler *)
(* --------------------------------------------------------------------- *)

Section AssemblerFacts.

Variable P : Platform.

Lemma keepsApp_ret {A} (a : A) : keepsApp (ret a).
Proof. now intros w. Qed.

Lemma keepsApp_throw {A} (e : Exn) : keepsApp (@throw A e).
Proof. now intros w. Qed.

Lemma keepsApp_settle {A} (r : Exn + A) : keepsApp (settle r).
Proof. now intros w. Qed.

Lemma keepsApp_call {A} (ev : Event) (oracle : History -> Exn + A) :
  keepsApp (call ev oracle).
Proof. now intros w. Qed.

Lemma keepsApp_bind {A B} (c : M A) (k : A -> M B) :
  keepsApp c -> (forall a, keepsApp (k a)) -> keepsApp (bind c k).
Proof.
  intros Hc Hk w. unfold bind. specialize (Hc w).
  destruct (c w) as [[e|a] w1]; cbn [snd] in *; [exact Hc|].
  now rewrite Hk.
Qed.

Lemma keepsApp_try_catch {A} (c : M A) (handler : Exn -> M A) :
  keepsApp c -> (forall e, keepsApp (handler e)) -> keepsApp (try_catch c handler).
Proof.
  intros Hc Hh w. unfold try_catch. specialize (Hc w).
  destruct (c w) as [[e|a] w1]; cbn [snd] in *; [|exact Hc].
  now rewrite Hh.
Qed.

Lemma keepsApp_settled {A} (c : M A) : keepsApp c -> keepsApp (settled c).
Proof.
  intros Hc w. unfold settled. specialize (Hc w). now destruct (c w).
Qed.

Lemma keepsApp_promiseAll3 {A B C} (a : M A) (b : M B) (c : M C) :
  keepsApp a -> keepsApp b -> keepsApp c -> keepsApp (promiseAll3 a b c).
Proof.
  intros Ha Hb Hc. unfold promiseAll3.
  apply keepsApp_bind; [now apply keepsApp_settled | intros ra].
  apply keepsApp_bind; [now apply keepsApp_settled | intros rb].
  apply keepsApp_bind; [now apply keepsApp_settled | intros rc].
  destruct ra, rb, rc; (apply keepsApp_ret || apply keepsApp_throw).
Qed.

Lemma keepsApp_getProxiedUrl (target : string) : keepsApp (getProxiedUrl P target).
Proof. now intros w. Qed.

Lemma keepsApp_fetchMetadataWithGemini (url : string) :
  keepsApp (fetchMetadataWithGemini P url).
Proof.
  intros w. destruct (fetchMetadataWithGemini_total P url w) as [v E].
  now rewrite E.
Qed.

Lemma keepsApp_fetchFaviconBase64 (domain originalUrl : string) :
  keepsApp (fetchFaviconBase64 P domain originalUrl).
Proof.
  intros w.
  destruct (fetchFaviconBase64_total P domain originalUrl w) as [v [w' [E Ha]]].
  now rewrite E.
Qed.

Lemma publishesOrThrows_bind {A} (Q : CardData -> Prop) (c : M A) (k : A -> M unit) :
  keepsApp c -> (forall a, publishesOrThrows Q (k a)) ->
  publishesOrThrows Q (bind c k).
Proof.
  intros Hc Hk w. unfold publishesAt, bind. specialize (Hc w).
  destruct (c w) as [[e|a] w1]; cbn [snd] in *.
  - left. exists e. now split.
  - destruct (Hk a w1) as [[e [He Ha]] | [Hr [Hs Hcard]]].
    + left. exists e. split; [exact He | congruence].
    + right. now repeat split.
Qed.

(** The same for a call of the proxy resolver, whose value is known to be
    a proxied URL of its target. *)
Lemma publishesOrThrows_getProxiedUrl (Q : CardData -> Prop) (target : string)
      (k : string -> M unit) :
  (forall t, publishesOrThrows Q (k (proxiedUrlAt t target))) ->
  publishesOrThrows Q (bind (getProxiedUrl P target) k).
Proof.
  intros Hk w. unfold publishesAt, bind. rewrite getProxiedUrl_run. cbn [snd fst].
  apply (Hk (Date_now P (trace w))
            {| app := app w; trace := (trace w ++ [EvDateNow])%list |}).
Qed.

(** After the status is set to [fetching_metadata], the [try] block
    either throws before it has touched the React state again, or
    publishes a card built from the two screenshot services and the
    status [completed]. *)
Lemma handleGenerate_try_outcome (a : AppState) (processedUrl : string) (w : World) :
  (exists e,
      fst (handleGenerate_try P a processedUrl w) = inl e
      /\ sameButStatus (app w) (app (snd (handleGenerate_try P a processedUrl w))))
  \/ (fst (handleGenerate_try P a processedUrl w) = inr tt
      /\ step (status (app (snd (handleGenerate_try P a processedUrl w)))) = completed
      /\ exists card,
           cardData (app (snd (handleGenerate_try P a processedUrl w))) = Some card
           /\ builtByAssembler card).
Proof.
  unfold handleGenerate_try.
  set (rest := bind (settle (URL_hostname P processedUrl)) _).
  assert (H : publishesOrThrows builtByAssembler rest).
  { unfold rest.
    apply publishesOrThrows_bind; [apply keepsApp_settle | intros hostname].
    apply publishesOrThrows_bind; [|intros [[metadata qrDataUrl] faviconBase64]].
    { apply keepsApp_promiseAll3.
      - apply keepsApp_fetchMetadataWithGemini.
      - apply keepsApp_call.
      - apply keepsApp_fetchFaviconBase64. }
    apply publishesOrThrows_getProxiedUrl. intros t1.
    apply publishesOrThrows_getProxiedUrl. intros t2.
    apply publishesOrThrows_bind; [apply keepsApp_settle | intros title].
    apply publishesOrThrows_bind; [apply keepsApp_settle | intros description].
    apply publishesOrThrows_bind; [apply keepsApp_call | intros timestamp].
    intros w0. right. split; [reflexivity|]. split; [reflexivity|].
    eexists. split; [reflexivity|].
    exists t1, t2, processedUrl, (selectedViewport a), (websiteTheme a).
    now split. }
  clearbody rest.
  unfold bind, setStatus, modifyApp.
  match goal with
  | |- context [rest ?w1] => destruct (H w1) as [[e [He Ha]] | [Hr [Hs Hcard]]]
  end.
  - left. exists e. split; [exact He|].
    rewrite Ha. unfold sameButStatus. cbn. repeat split.
  - right. now repeat split.
Qed.

(** The handler itself never throws. *)
Lemma handleGenerate_total (w : World) : fst (handleGenerate P w) = inr tt.
Proof.
  unfold handleGenerate. unfold bind at 1. unfold getApp.
  destruct (negb _); [reflexivity|].
  unfold try_catch.
  destruct (handleGenerate_try_outcome (app w) (processUrl (urlInput (app w))) w)
    as [[e [He _]] | [Hr _]];
    destruct (handleGenerate_try P _ _ w) as [[e'|[]] w1]; cbn [fst] in *;
    try discriminate; reflexivity.
Qed.

(** Whatever card is current after the handler is the card from before
    or one built by the assembler. *)
Lemma handleGenerate_card (w : World) (card : CardData) :
  cardData (app (snd (handleGenerate P w))) = Some card ->
  cardData (app w) = Some card \/ builtByAssembler card.
Proof.
  unfold handleGenerate. unfold bind at 1. unfold getApp.
  destruct (negb _); [now left|].
  unfold try_catch.
  destruct (handleGenerate_try_outcome (app w) (processUrl (urlInput (app w))) w)
    as [[e [He Ha]] | [Hr [Hs [card' [Hc Hb]]]]];
    destruct (handleGenerate_try P _ _ w) as [[e'|[]] w1]; cbn [fst snd] in *;
    try discriminate.
  - cbn. intros H. left. destruct Ha as [_ [Ha _]]. congruence.
  - intros H. right. congruence.
Qed.

(** In a card built by the assembler the backup reference is there, is
    not empty and is another URL than the primary. *)
Lemma builtByAssembler_sources (card : CardData) :
  builtByAssembler card ->
  exists b, backupScreenshotUrl card = Some b /\ b <> "" /\ b <> screenshotUrl card.
Proof.
  intros [t1 [t2 [processedUrl [vp [th [Hp Hb]]]]]].
  exists (proxiedUrlAt t2 (mshotsUrl processedUrl vp)).
  split; [exact Hb|]. split.
  - discriminate.
  - rewrite Hp. intros H. apply proxiedUrlAt_inj in H. destruct H as [H _].
    symmetry in H. now apply screenshot_targets_differ in H.
Qed.

End AssemblerFacts.

(** C4: a generation that ends in the [error] status has published
    nothing: the handler returns without throwing, the current CardData
    is the one from before the attempt, and no other part of the React
    state than the status has changed. *)
Theorem handleGenerate_error_keeps_card (P : Platform) (w : World) :
  step (status (app (snd (handleGenerate P w)))) = error ->
  fst (handleGenerate P w) = inr tt
  /\ cardData (app (snd (handleGenerate P w))) = cardData (app w)
  /\ sameButStatus (app w) (app (snd (handleGenerate P w))).
Proof.
  intros Herr. split; [apply handleGenerate_total|].
  assert (S : sameButStatus (app w) (app (snd (handleGenerate P w)))).
  { revert Herr. unfold handleGenerate. unfold bind at 1 2. unfold getApp.
    destruct (negb _).
    - intros _. cbn. unfold sameButStatus. repeat split.
    - unfold try_catch.
      destruct (handleGenerate_try_outcome P (app w) (processUrl (urlInput (app w))) w)
        as [[e [He Ha]] | [Hr [Hs _]]];
        destruct (handleGenerate_try P _ _ w) as [[e'|[]] w1]; cbn [fst snd] in *;
        try discriminate.
      + intros _. cbn. unfold sameButStatus in *. cbn. exact Ha.
      + intros Herr. rewrite Hs in Herr. discriminate. }
  split; [apply S | exact S].
Qed.

Lemma handleGenerate_error_keeps_card_witness :
  step (status (app (snd (handleGenerate (Reference.offline 0)
                            {| app := {| urlInput := "exa mple";
                                         cardData := Some Reference.exampleCard;
                                         status := {| step := completed; message := None |};
                                         theme := Light; websiteTheme := Light;
                                         showSocialPreview := false; socialImage := "";
                                         selectedViewport := selectedViewport initialApp;
                                         cardRef := Some CardNode |};
                               trace := [] |})))) = error
  /\ cardData (app (snd (handleGenerate (Reference.offline 0)
                           {| app := {| urlInput := "exa mple";
                                        cardData := Some Reference.exampleCard;
                                        status := {| step := completed; message := None |};
                                        theme := Light; websiteTheme := Light;
                                        showSocialPreview := false; socialImage := "";
                                        selectedViewport := selectedViewport initialApp;
                                        cardRef := Some CardNode |};
                              trace := [] |})))
     = Some Reference.exampleCard.
Proof.
  split; [reflexivity|].
  destruct (handleGenerate_error_keeps_card (Reference.offline 0)
              {| app := {| urlInput := "exa mple";
                           cardData := Some Reference.exampleCard;
                           status := {| step := completed; message := None |};
                           theme := Light; websiteTheme := Light;
                           showSocialPreview := false; socialImage := "";
                           selectedViewport := selectedViewport initialApp;
                           cardRef := Some CardNode |};
                 trace := [] |}) as [_ [H _]].
  - reflexivity.
  - exact H.
Defined.

(* --------------------------------------------------------------------- *)
(** ** The cards the application shows *)
(* --------------------------------------------------------------------- *)

(** On a card built by the assembler the fallback machine goes through
    its three steps: the failure of the primary switches to the backup,
    pending; the failure of the backup is final. *)
Lemma fallback_on_built_card (card : CardData) (st : SmartCard.State) :
  builtByAssembler card ->
  SmartCard.phase card
    (SmartCard.handleScreenshotError card (SmartCard.onDataChange (Some card) st))
  = SmartCard.PendingBackup
  /\ SmartCard.phase card
       (SmartCard.handleScreenshotError card
          (SmartCard.handleScreenshotError card
             (SmartCard.onDataChange (Some card) st)))
     = SmartCard.Unavailable.
Proof.
  intros Hbuilt.
  destruct (builtByAssembler_sources card Hbuilt) as [b [Hb [Hne Hdiff]]].
  rewrite (handleScreenshotError_on_primary card b Hb Hne) by reflexivity.
  split.
  - unfold SmartCard.phase. cbn.
    apply String.eqb_neq in Hdiff. now rewrite Hdiff.
  - apply phase_Unavailable.
    now rewrite (handleScreenshotError_off_primary card b Hb).
Qed.

(* ===================================================================== *)
(** * Further properties of the pipeline *)
(* ===================================================================== *)

(* --------------------------------------------------------------------- *)
(** ** Metadata Acquirer: closed form and markdown fences *)
(* --------------------------------------------------------------------- *)

Section FenceFacts.

Lemma append_nil_r (s : string) : s ++ "" = s.
Proof. induction s as [|c s IH]; simpl; [reflexivity | now rewrite IH]. Qed.

Lemma prefix_append (p s : string) : String.prefix p (p ++ s) = true.
Proof.
  induction p as [|c p IH]; simpl.
  - now destruct s.
  - destruct (ascii_dec c c); [exact IH | congruence].
Qed.

(** Characters still to be skipped are dropped without being looked at. *)
Lemma removeAll_from_skip (pat x s : string) :
  JsString.removeAll_from (String.length x) pat (x ++ s)
  = JsString.removeAll_from 0 pat s.
Proof.
  induction x as [|c x IH]; [reflexivity | exact IH].
Qed.

(** A match at the front is removed. *)
Lemma removeAll_from_match (c : ascii) (p s : string) :
  JsString.removeAll_from 0 (String c p) (String c p ++ s)
  = JsString.removeAll_from 0 (String c p) s.
Proof.
  change (String c p ++ s) with (String c (p ++ s)).
  cbn [JsString.removeAll_from].
  change (String c (p ++ s)) with (String c p ++ s).
  rewrite prefix_append. cbn [String.length].
  apply removeAll_from_skip.
Qed.

(** Text without backticks is kept by the removal of a fence. *)
Lemma removeAll_from_noBacktick (p body rest : string) :
  noBacktick body = true ->
  JsString.removeAll_from 0 (String "`" p) (body ++ rest)
  = body ++ JsString.removeAll_from 0 (String "`" p) rest.
Proof.
  induction body as [|c body IH]; intros H; [reflexivity|].
  cbn [noBacktick] in H. apply andb_true_iff in H. destruct H as [Hc Hb].
  change (String c body ++ rest) with (String c (body ++ rest)).
  cbn [JsString.removeAll_from String.prefix].
  destruct (ascii_dec "`" c) as [E|_].
  - subst c. discriminate Hc.
  - cbn [String.append]. f_equal. now apply IH.
Qed.

(** An answer without backticks is only trimmed; wrapped in a
    [```json ... ```] fence, it is unwrapped and trimmed. *)
Lemma stripFences_noBacktick (body : string) :
  noBacktick body = true ->
  stripFences body = JsString.trim body
  /\ stripFences ("```json" ++ body ++ "```") = JsString.trim body.
Proof.
  intros H. unfold stripFences, JsString.removeAll.
  assert (E0 : forall p, JsString.removeAll_from 0 (String "`" p) body = body).
  { intros p. rewrite <- (append_nil_r body) at 1.
    rewrite (removeAll_from_noBacktick p body "" H). apply append_nil_r. }
  assert (E1 : JsString.removeAll_from 0 "```json" "```" = "```") by reflexivity.
  assert (E2 : JsString.removeAll_from 0 "```" "```" = "") by reflexivity.
  split.
  - now rewrite !E0.
  - change ("```json" ++ body ++ "```") with (String "`" "``json" ++ (body ++ "```")).
    rewrite removeAll_from_match.
    rewrite (removeAll_from_noBacktick _ body "```" H), E1.
    rewrite (removeAll_from_noBacktick _ body "```" H), E2.
    now rewrite append_nil_r.
Qed.

End FenceFacts.

Section MetadataClosedForm.

Variable P : Platform.

(** The acquirer as a function of the trace it is called at. *)
Lemma fetchMetadataWithGemini_run (url : string) (w : World) :
  fetchMetadataWithGemini P url w
  = (inr (metadataValue P url (trace w)),
     {| app := app w; trace := (trace w ++ [EvGenerateContent url])%list |}).
Proof.
  unfold fetchMetadataWithGemini, try_catch, fetchMetadata_try, bind, call,
    metadataValue, stripFences.
  cbn [app trace].
  destruct (generateContent P (trace w) url) as [e|[text|]].
  - now rewrite fetchMetadata_catch_run.
  - destruct (JsString.truthy text); cbn [negb].
    + unfold settle. destruct (JSON_parse P _).
      * now rewrite fetchMetadata_catch_run.
      * reflexivity.
    + unfold throw. now rewrite fetchMetadata_catch_run.
  - unfold throw. now rewrite fetchMetadata_catch_run.
Qed.

End MetadataClosedForm.

(** X1: the Metadata Acquirer never throws, asks the service exactly once
    and leaves the React state alone; what it returns is the parsed
    answer when the answer has text that parses once its fences are
    stripped, and the fallback built from the URL in every other case. *)
Theorem fetchMetadataWithGemini_closed_form (P : Platform) (url : string) (w : World) :
  fetchMetadataWithGemini P url w
  = (inr (metadataValue P url (trace w)),
     {| app := app w; trace := (trace w ++ [EvGenerateContent url])%list |})
  /\ (metadataValue P url (trace w) = metadataFallback P url
      \/ exists text,
           generateContent P (trace w) url = inr (Some text)
           /\ text <> ""
           /\ JSON_parse P (stripFences text) = inr (metadataValue P url (trace w))).
Proof.
  split; [apply fetchMetadataWithGemini_run|].
  unfold metadataValue.
  destruct (generateContent P (trace w) url) as [e|[text|]]; try now left.
  destruct text as [|c text]; [now left|]. cbn [JsString.truthy].
  destruct (JSON_parse P _) as [e|v] eqn:E; [now left|].
  right. exists (String c text). repeat split; [discriminate | exact E].
Qed.

(** X2: an answer that the model wrapped in a [```json ... ```] fence is
    parsed as if it were not wrapped: when the text inside the fence has
    no backtick and parses after trimming, the acquirer returns the
    parsed value. *)
Theorem fetchMetadataWithGemini_unwraps_fence
        (P : Platform) (url body : string) (v : JSON) (w : World) :
  generateContent P (trace w) url = inr (Some ("```json" ++ body ++ "```")) ->
  noBacktick body = true ->
  JSON_parse P (JsString.trim body) = inr v ->
  fst (fetchMetadataWithGemini P url w) = inr v.
Proof.
  intros Hg Hb Hp. rewrite fetchMetadataWithGemini_run. cbn [fst].
  unfold metadataValue. rewrite Hg. cbn [String.append JsString.truthy].
  change (String "`" (String "`" (String "`" (String "j" (String "s" (String "o"
            (String "n" (body ++ "```"))))))))
    with ("```json" ++ body ++ "```").
  destruct (stripFences_noBacktick body Hb) as [_ E]. rewrite E.
  now rewrite Hp.
Qed.

Lemma fetchMetadataWithGemini_unwraps_fence_witness :
  fst (fetchMetadataWithGemini
         (answeringMetadata "```json
{}
```" "{}" (JObject []) Reference.notFound None)
         "https://example.com" (Reference.typed "example.com"))
  = inr (JObject []).
Proof.
  apply (fetchMetadataWithGemini_unwraps_fence
           (answeringMetadata "```json
{}
```" "{}" (JObject []) Reference.notFound None)
           "https://example.com" "
{}
" (JObject []) (Reference.typed "example.com")).
  - reflexivity.
  - reflexivity.
  - reflexivity.
Defined.

(* --------------------------------------------------------------------- *)
(** ** Favicon Acquirer: what it can return *)
(* --------------------------------------------------------------------- *)

Section FaviconInvariant.

Variable P : Platform.

Lemma dataUriOrEmpty_absentOrImage (result : option string) :
  absentOrImage (dataUriOrEmpty result).
Proof.
  unfold absentOrImage, dataUriOrEmpty.
  destruct result as [r|]; [|now left].
  destruct (JsString.truthy r); cbn [andb]; [|now left].
  destruct (JsString.startsWith r "data:image") eqn:E; [now right | now left].
Qed.

(** One candidate never throws, makes one request, and what it returns
    is the empty string or an embedded image. *)
Lemma faviconCandidate_invariant (s : string) (w : World) :
  exists r w',
    faviconCandidate P s w = (inr r, w')
    /\ app w' = app w
    /\ List.length (fetched (trace w')) = List.length (fetched (trace w)) + 1
    /\ match r with Continue => True | Return v => absentOrImage v end.
Proof.
  cbv beta iota delta
    [faviconCandidate faviconCandidate_try try_catch bind getProxiedUrl call ret settle].
  cbn [app trace].
  assert (L : forall (u : string) (tail : History),
             List.length (fetched ((trace w ++ [EvDateNow]) ++ EvFetch u :: tail)%list)
             = List.length (fetched (trace w)) + S (List.length (fetched tail))).
  { intros u tail. rewrite !fetched_app, !length_app. simpl. lia. }
  destruct (fetch P _ _) as [e|resp]; cbn [app trace].
  - do 2 eexists. repeat split. cbn [trace]. rewrite (L _ []). simpl. lia.
  - destruct (negb (ok resp)).
    + do 2 eexists. repeat split. cbn [trace]. rewrite (L _ []). simpl. lia.
    + destruct (blob resp) as [e|b]; cbn [app trace].
      * do 2 eexists. repeat split. cbn [trace]. rewrite (L _ []). simpl. lia.
      * destruct (blobRejected b); cbn [app trace].
        -- do 2 eexists. repeat split. cbn [trace]. rewrite (L _ []). simpl. lia.
        -- do 2 eexists. split; [reflexivity|]. split; [reflexivity|]. split.
           ++ cbn [trace]. rewrite <- app_assoc. cbn [List.app].
              rewrite (L _ [EvReadAsDataURL b]). simpl. lia.
           ++ apply dataUriOrEmpty_absentOrImage.
Qed.

Lemma faviconLoop_invariant (services : list string) :
  forall w, exists v w',
    faviconLoop P services w = (inr v, w')
    /\ app w' = app w
    /\ List.length (fetched (trace w'))
       <= List.length (fetched (trace w)) + List.length services
    /\ absentOrImage v.
Proof.
  induction services as [|s rest IH]; intros w.
  - exists "", w. repeat split; [simpl; lia | now left].
  - cbn [faviconLoop]. unfold bind.
    destruct (faviconCandidate_invariant s w) as [r [w1 [E [Ha [Hn Hr]]]]].
    rewrite E. destruct r as [|v].
    + destruct (IH w1) as [v [w2 [E2 [Ha2 [Hn2 Hv]]]]].
      exists v, w2. repeat split; [exact E2 | congruence | simpl; lia | exact Hv].
    + exists v, w1. repeat split; [exact Ha | simpl; lia | exact Hr].
Qed.

End FaviconInvariant.


(** X4: first success wins. When the candidates before [s] are refused
    and the response for [s] passes the status, size and content-type
    checks and converts to a string that begins with [data:image], the
    Favicon Acquirer returns that string, and no candidate after [s] is
    requested. *)
Theorem fetchFaviconBase64_first_success_wins
        (P : Platform) (domain originalUrl : string) (w : World)
        (pre post : list string) (s : string) (resp : Response) (b : Blob)
        (dataUri : string) :
  faviconServices domain originalUrl = (pre ++ s :: post)%list ->
  refusedInTurn P (trace w) pre ->
  fetch P (traceAfterRefused P (trace w) pre ++ [EvDateNow])%list
    (proxiedUrlAt (Date_now P (traceAfterRefused P (trace w) pre)) s) = inr resp ->
  ok resp = true ->
  blob resp = inr b ->
  blobRejected b = false ->
  FileReader_result P
    (traceAfterRefused P (trace w) pre
       ++ [EvDateNow;
           EvFetch (proxiedUrlAt (Date_now P (traceAfterRefused P (trace w) pre)) s)])%list
    b = Some dataUri ->
  JsString.startsWith dataUri "data:image" = true ->
  fetchFaviconBase64 P domain originalUrl w
  = (inr dataUri,
     {| app := app w;
        trace :=
          (traceAfterRefused P (trace w) pre
             ++ [EvDateNow;
                 EvFetch (proxiedUrlAt (Date_now P (traceAfterRefused P (trace w) pre)) s);
                 EvReadAsDataURL b])%list |})
  /\ List.length (fetched (trace (snd (fetchFaviconBase64 P domain originalUrl w))))
     = List.length (fetched (trace w)) + List.length pre + 1.
Proof.
  intros Hlist Hpre Hf Hok Hblob Hb Hconv Himg.
  assert (E : fetchFaviconBase64 P domain originalUrl w
              = (inr dataUri,
                 {| app := app w;
                    trace :=
                      (traceAfterRefused P (trace w) pre
                         ++ [EvDateNow;
                             EvFetch (proxiedUrlAt
                                        (Date_now P (traceAfterRefused P (trace w) pre)) s);
                             EvReadAsDataURL b])%list |})).
  { unfold fetchFaviconBase64. rewrite Hlist.
    rewrite (faviconLoop_skip_refused P pre (s :: post) w Hpre).
    cbn [faviconLoop]. unfold bind.
    rewrite (faviconCandidate_accepted P s
               {| app := app w; trace := traceAfterRefused P (trace w) pre |}
               resp b Hf Hok Hblob Hb).
    cbn [app trace]. unfold ret. rewrite Hconv.
    unfold dataUriOrEmpty. rewrite Himg.
    destruct dataUri; [discriminate Himg | reflexivity]. }
  split; [exact E|].
  rewrite E. cbn [snd trace].
  rewrite fetched_app, length_app, fetched_traceAfterRefused. simpl. lia.
Qed.

Lemma fetchFaviconBase64_first_success_wins_witness :
  fst (fetchFaviconBase64
         (Reference.answering Reference.pngBody (Some "data:image/png;base64,AAAA"))
         "example.com" "https://example.com" (Reference.typed "example.com"))
  = inr "data:image/png;base64,AAAA"
  /\ List.length
       (fetched (trace (snd (fetchFaviconBase64
                               (Reference.answering Reference.pngBody
                                  (Some "data:image/png;base64,AAAA"))
                               "example.com" "https://example.com"
                               (Reference.typed "example.com")))))
     = 1.
Proof.
  destruct (fetchFaviconBase64_first_success_wins
              (Reference.answering Reference.pngBody (Some "data:image/png;base64,AAAA"))
              "example.com" "https://example.com" (Reference.typed "example.com")
              []
              [ "https://www.google.com/s2/favicons?domain=example.com&sz=128";
                "https://icons.duckduckgo.com/ip3/example.com.ico" ]
              "https://t2.gstatic.com/faviconV2?client=SOCIAL&type=FAVICON&fallback_opts=TYPE,SIZE,URL&url=https%3A%2F%2Fexample.com&size=128"
              Reference.pngBody
              {| blob_size := 2048; blob_type := "image/png" |}
              "data:image/png;base64,AAAA")
    as [E L].
  - reflexivity.
  - exact I.
  - reflexivity.
  - reflexivity.
  - reflexivity.
  - reflexivity.
  - reflexivity.
  - reflexivity.
  - split; [now rewrite E | exact L].
Defined.

(* --------------------------------------------------------------------- *)
(** ** Card Assembler: every way a generation can end *)
(* --------------------------------------------------------------------- *)

Section GenerateRun.

Variable P : Platform.

Lemma getProp_null_iff (v : JSON) (k : string) :
  (exists e, getProp v k = inl e) <-> v = JNull.
Proof.
  split.
  - intros [e H]. destruct v; try discriminate H. reflexivity.
  - intros ->. now eexists.
Qed.

Lemma getProp_propOf (v : JSON) (k : string) :
  v <> JNull -> getProp v k = inr (propOf v k).
Proof.
  intros H. unfold propOf. destruct v; try reflexivity. congruence.
Qed.

(** The [try] block, case by case. *)
Lemma handleGenerate_try_cases (a : AppState) (processedUrl : string) (w : World) :
  match URL_hostname P processedUrl with
  | inl e =>
      handleGenerate_try P a processedUrl w
      = (inl e, {| app := analysing (app w); trace := trace w |})
  | inr hostname =>
      exists (favicon : string) (w3 : World),
        fetchFaviconBase64 P (displayDomain hostname) processedUrl
          {| app := analysing (app w);
             trace := (trace w ++ [EvGenerateContent processedUrl;
                                   EvQRCode processedUrl])%list |}
        = (inr favicon, w3)
        /\ absentOrImage favicon
        /\ match QRCode_toDataURL P (trace w ++ [EvGenerateContent processedUrl])%list
                   processedUrl with
           | inl e =>
               fst (handleGenerate_try P a processedUrl w) = inl e
               /\ app (snd (handleGenerate_try P a processedUrl w)) = analysing (app w)
           | inr qr =>
               if match metadataValue P processedUrl (trace w) with
                  | JNull => true
                  | _ => false
                  end
               then
                 (exists e, fst (handleGenerate_try P a processedUrl w) = inl e)
                 /\ app (snd (handleGenerate_try P a processedUrl w)) = analysing (app w)
               else
                 handleGenerate_try P a processedUrl w
                 = (inr tt,
                    {| app :=
                         published (app w)
                           (assembledCard a processedUrl hostname
                              (metadataValue P processedUrl (trace w)) qr favicon
                              (Date_now P (trace w3))
                              (Date_now P (trace w3 ++ [EvDateNow])%list)
                              (toLocaleDateString P
                                 (trace w3 ++ [EvDateNow; EvDateNow])%list));
                       trace := (trace w3 ++ [EvDateNow; EvDateNow; EvLocaleDate])%list |})
           end
  end.
Proof.
  remember (handleGenerate_try P a processedUrl w) as R eqn:ER.
  cbv beta iota delta
    [handleGenerate_try bind settle settled promiseAll3 call setStatus setCardData
     modifyApp ret throw] in ER.
  cbn [app trace] in ER.
  change {| urlInput := urlInput (app w); cardData := cardData (app w);
            status := {| step := fetching_metadata;
                         message := Some "Analyzing URL with Gemini..." |};
            theme := theme (app w); websiteTheme := websiteTheme (app w);
            showSocialPreview := showSocialPreview (app w);
            socialImage := socialImage (app w);
            selectedViewport := selectedViewport (app w);
            cardRef := cardRef (app w) |}
    with (analysing (app w)) in ER.
  destruct (URL_hostname P processedUrl) as [e|hostname]; [exact ER|].
  destruct (faviconLoop_invariant P (faviconServices (displayDomain hostname) processedUrl)
              {| app := analysing (app w);
                 trace := (trace w ++ [EvGenerateContent processedUrl;
                                       EvQRCode processedUrl])%list |})
    as [favicon [w3 [Ef [Ha [_ Hfav]]]]].
  fold (fetchFaviconBase64 P (displayDomain hostname) processedUrl) in Ef.
  exists favicon, w3. split; [exact Ef|]. split; [exact Hfav|].
  cbn [app] in Ha.
  rewrite fetchMetadataWithGemini_run in ER. cbn [app trace] in ER.
  rewrite <- app_assoc in ER. cbn [List.app] in ER.
  rewrite Ef in ER.
  destruct (QRCode_toDataURL P (trace w ++ [EvGenerateContent processedUrl])%list
              processedUrl) as [e|qr].
  - subst R. cbn [fst snd]. now split.
  - cbv beta iota in ER. rewrite !getProxiedUrl_run in ER.
    cbv beta iota in ER. cbn [app trace] in ER.
    destruct (metadataValue P processedUrl (trace w)) eqn:Ev;
      cbn [getProp] in ER; cbv beta iota in ER; subst R; cbn [fst snd app trace];
      try (split; [now eexists | exact Ha]);
      rewrite <- !app_assoc; cbn [List.app];
      unfold published, assembledCard, propOf; cbn [getProp];
      rewrite Ha; reflexivity.
Qed.

End GenerateRun.

Section GenerateOutcome.

Variable P : Platform.

(** A generation ends in one of three ways: nothing was done (blank
    input), the status is [error] and nothing else changed, or a card
    assembled from the input was published with the status [completed]. *)
Lemma handleGenerate_three_ways (w : World) :
  (JsString.trim (urlInput (app w)) = "" /\ handleGenerate P w = (inr tt, w))
  \/ (JsString.trim (urlInput (app w)) <> ""
      /\ exists w', handleGenerate P w = (inr tt, w') /\ app w' = failed (app w))
  \/ (JsString.trim (urlInput (app w)) <> ""
      /\ exists card w',
          handleGenerate P w = (inr tt, w')
          /\ app w' = published (app w) card
          /\ assembledBy P (app w) card).
Proof.
  remember (handleGenerate P w) as R eqn:ER.
  cbv beta iota zeta delta [handleGenerate bind getApp try_catch] in ER.
  destruct (JsString.trim (urlInput (app w))) as [|c t] eqn:Et;
    cbn [JsString.truthy negb] in ER.
  - left. now split.
  - right.
    pose proof (handleGenerate_try_cases P (app w) (processUrl (urlInput (app w))) w)
      as H.
    assert (Hfail : forall e w1,
               handleGenerate_try P (app w) (processUrl (urlInput (app w))) w = (inl e, w1) ->
               app w1 = analysing (app w) ->
               exists w', R = (inr tt, w') /\ app w' = failed (app w)).
    { intros e w1 E Ha. rewrite E in ER. subst R.
      eexists. split; [reflexivity|]. cbn. now rewrite Ha. }
    destruct (URL_hostname P (processUrl (urlInput (app w)))) as [e|hostname] eqn:Eh.
    + left. split; [discriminate|]. now apply (Hfail _ _ H).
    + destruct H as [favicon [w3 [Ef [Hfav H]]]].
      destruct (QRCode_toDataURL P _ _) as [e|qr].
      * left. split; [discriminate|]. destruct H as [He Ha].
        destruct (handleGenerate_try P _ _ w) as [[e'|[]] w1] eqn:E; cbn [fst snd] in *;
          [|discriminate].
        now apply (Hfail e' w1).
      * assert (Hok : handleGenerate_try P (app w) (processUrl (urlInput (app w))) w
                      = (inr tt,
                         {| app :=
                              published (app w)
                                (assembledCard (app w) (processUrl (urlInput (app w)))
                                   hostname
                                   (metadataValue P (processUrl (urlInput (app w))) (trace w))
                                   qr favicon
                                   (Date_now P (trace w3))
                                   (Date_now P (trace w3 ++ [EvDateNow])%list)
                                   (toLocaleDateString P
                                      (trace w3 ++ [EvDateNow; EvDateNow])%list));
                            trace := (trace w3 ++ [EvDateNow; EvDateNow; EvLocaleDate])%list |}) ->
                      metadataValue P (processUrl (urlInput (app w))) (trace w) <> JNull ->
                      exists card w',
                        R = (inr tt, w')
                        /\ app w' = published (app w) card
                        /\ assembledBy P (app w) card).
        { intros E Hv. rewrite E in ER. subst R. do 2 eexists.
          split; [reflexivity|]. split; [reflexivity|].
          exists hostname. do 6 eexists.
          split; [exact Eh|]. split; [exact Hv|]. split; [exact Hfav | reflexivity]. }
        destruct (metadataValue P (processUrl (urlInput (app w))) (trace w)) eqn:Ev;
          try (right; split; [discriminate|]; apply Hok; [exact H | discriminate]).
        left. split; [discriminate|]. destruct H as [[e He] Ha].
        destruct (handleGenerate_try P _ _ w) as [[e'|[]] w1] eqn:E; cbn [fst snd] in *;
          [|discriminate].
        now apply (Hfail e' w1).
Qed.

End GenerateOutcome.

Section GenerateFacts.

Variable P : Platform.

Lemma processUrl_hasHttpScheme (urlInput : string) :
  hasHttpScheme (processUrl urlInput) = true.
Proof.
  unfold processUrl.
  destruct (hasHttpScheme (JsString.trim urlInput)) eqn:E; cbn [negb].
  - exact E.
  - unfold hasHttpScheme. apply orb_true_iff. right.
    destruct (JsString.trim urlInput); reflexivity.
Qed.


Lemma metadataFallback_not_null (url : string) : metadataFallback P url <> JNull.
Proof. unfold metadataFallback. destruct (URL_hostname P url); discriminate. Qed.

(** A card built by [assembledCard] has the two screenshot references of
    the assembler. *)
Lemma assembledCard_built (a : AppState) (processedUrl hostname : string)
      (metadata : JSON) (qr favicon : string) (t1 t2 : Z) (ts : string) :
  builtByAssembler
    (assembledCard a processedUrl hostname metadata qr favicon t1 t2 ts).
Proof.
  exists t1, t2, processedUrl, (selectedViewport a), (websiteTheme a). now split.
Qed.

End GenerateFacts.

(** X5: the normalized URL always carries a scheme: whatever is typed,
    the processed URL starts with [http://] or [https://] (in any letter
    case); an input with such a scheme is only trimmed, any other input
    is trimmed and prefixed with [https://]. *)
Theorem processUrl_always_has_scheme (urlInput : string) :
  hasHttpScheme (processUrl urlInput) = true
  /\ (hasHttpScheme (JsString.trim urlInput) = true ->
      processUrl urlInput = JsString.trim urlInput)
  /\ (hasHttpScheme (JsString.trim urlInput) = false ->
      processUrl urlInput = "https://" ++ JsString.trim urlInput).
Proof.
  split; [apply processUrl_hasHttpScheme|].
  unfold processUrl. split; intros ->; reflexivity.
Qed.

(** X6: a blank input (empty, or white space only) makes [handleGenerate]
    return at once: no status change, no card change, no call to the
    network or any other service. *)
Theorem handleGenerate_blank_input_does_nothing (P : Platform) (w : World) :
  JsString.trim (urlInput (app w)) = "" ->
  handleGenerate P w = (inr tt, w).
Proof.
  intros H.
  destruct (handleGenerate_three_ways P w) as [[_ E] | [[Hn _] | [Hn _]]];
    [exact E | congruence | congruence].
Qed.

Lemma handleGenerate_blank_input_does_nothing_witness :
  handleGenerate (Reference.offline 0) (Reference.typed "  	 ")
  = (inr tt, Reference.typed "  	 ").
Proof.
  apply (handleGenerate_blank_input_does_nothing (Reference.offline 0)
           (Reference.typed "  	 ")).
  reflexivity.
Defined.

(** X7: when the processed URL does not parse, the generation fails
    before anything is requested: the status becomes [error] with the
    message [Failed to generate card. Please try again.], the rest of the
    React state is kept, and the trace of platform calls is unchanged. *)
Theorem handleGenerate_invalid_url (P : Platform) (w : World) (e : Exn) :
  JsString.trim (urlInput (app w)) <> "" ->
  URL_hostname P (processUrl (urlInput (app w))) = inl e ->
  handleGenerate P w = (inr tt, {| app := failed (app w); trace := trace w |}).
Proof.
  intros Hn Hh.
  cbv beta iota zeta delta [handleGenerate bind getApp try_catch].
  destruct (JsString.trim (urlInput (app w))) as [|c t]; [congruence|].
  cbn [JsString.truthy negb].
  pose proof (handleGenerate_try_cases P (app w) (processUrl (urlInput (app w))) w) as H.
  rewrite Hh in H. rewrite H. reflexivity.
Qed.

Lemma handleGenerate_invalid_url_witness :
  handleGenerate (Reference.offline 0) (Reference.typed "exa mple")
  = (inr tt,
     {| app := failed (app (Reference.typed "exa mple")); trace := [] |}).
Proof.
  apply (handleGenerate_invalid_url (Reference.offline 0) (Reference.typed "exa mple")
           (JsError "Invalid URL")).
  - discriminate.
  - reflexivity.
Defined.





(** X10: whenever a generation on a non-blank input completes, the card
    it publishes is consistent: its URL is the processed input and
    carries an [http(s)] scheme, its domain is the display domain of the
    host name of that URL, its favicon is the empty string or begins with
    [data:image], and its backup screenshot reference is present, not
    empty and different from the primary; the rest of the React state,
    apart from the status, is what it was. *)
Theorem handleGenerate_completed_card (P : Platform) (w : World) :
  JsString.trim (urlInput (app w)) <> "" ->
  step (status (app (snd (handleGenerate P w)))) = completed ->
  exists card,
    app (snd (handleGenerate P w)) = published (app w) card
    /\ url card = processUrl (urlInput (app w))
    /\ hasHttpScheme (url card) = true
    /\ (exists hostname,
           URL_hostname P (url card) = inr hostname
           /\ domain card = displayDomain hostname)
    /\ absentOrImage (faviconUrl card)
    /\ (exists b,
           backupScreenshotUrl card = Some b /\ b <> "" /\ b <> screenshotUrl card).
Proof.
  intros Hn Hc.
  destruct (handleGenerate_three_ways P w)
    as [[Hb _] | [[_ [w' [E Ha]]] | [_ [card [w' [E [Ha Hcard]]]]]]].
  - congruence.
  - rewrite E in Hc. cbn [snd] in Hc. rewrite Ha in Hc. discriminate Hc.
  - rewrite E. cbn [snd]. exists card. split; [exact Ha|].
    destruct Hcard as [hostname [metadata [qr [favicon [t1 [t2 [ts [Hh [Hv [Hf ->]]]]]]]]]].
    cbn [url domain faviconUrl assembledCard].
    split; [reflexivity|]. split; [apply processUrl_hasHttpScheme|].
    split; [now exists hostname|]. split; [exact Hf|].
    apply builtByAssembler_sources. apply assembledCard_built.
Qed.

Lemma handleGenerate_completed_card_witness :
  option_map faviconUrl
    (cardData (app (snd (handleGenerate (Reference.offline 0)
                           (Reference.typed "example.com")))))
  = Some "".
Proof.
  destruct (handleGenerate_completed_card (Reference.offline 0)
              (Reference.typed "example.com")) as [card [Ha _]].
  - discriminate.
  - reflexivity.
  - reflexivity.
Defined.

(* --------------------------------------------------------------------- *)
(** ** Image export: what the user sees *)
(* --------------------------------------------------------------------- *)

Section ExportOutcome.

Variable P : Platform.

Lemma notices_app (h1 h2 : History) :
  notices (h1 ++ h2)%list = (notices h1 ++ notices h2)%list.
Proof.
  induction h1 as [|ev h1 IH]; [reflexivity|].
  destruct ev; simpl; now rewrite IH.
Qed.

(** [generateImage] shows nothing to the user and keeps the React state. *)
Lemma generateImage_silent (node : Node) (options : Options) (format : Format)
      (w : World) :
  app (snd (generateImage P node options format w)) = app w
  /\ notices (trace (snd (generateImage P node options format w))) = notices (trace w).
Proof.
  destruct (generateImage_at_most_two P node options format w) as [Ha [Ht | Ht]];
    cbv zeta in *; (split; [exact Ha|]); rewrite Ht, notices_app; simpl;
    apply app_nil_r.
Qed.

End ExportOutcome.

(** X11: the three export handlers do nothing at all while no card is
    mounted or no card is current: no capture, no download, no alert, no
    state change. *)
Theorem export_handlers_need_a_mounted_card (P : Platform) (w : World) :
  cardRef (app w) = None \/ cardData (app w) = None ->
  handleDownloadPng P w = (inr tt, w)
  /\ handleDownloadSvg P w = (inr tt, w)
  /\ handleSocialPreview P w = (inr tt, w).
Proof.
  intros H.
  unfold handleDownloadPng, handleDownloadSvg, handleSocialPreview, bind, getApp.
  destruct H as [-> | ->]; [now repeat split|].
  destruct (cardRef (app w)); now repeat split.
Qed.

Lemma export_handlers_need_a_mounted_card_witness :
  handleDownloadPng (Reference.offline 0) (Reference.typed "example.com")
  = (inr tt, Reference.typed "example.com").
Proof.
  apply (export_handlers_need_a_mounted_card (Reference.offline 0)
           (Reference.typed "example.com")).
  now left.
Defined.

(** X12: with a card mounted, an SVG download never throws, never changes
    the React state, and shows the user exactly one thing: the download
    of [smart-card-<domain>-<theme>.svg] with the captured data when the
    capture (first attempt or retry) succeeded, the error alert when both
    attempts threw. *)
Theorem handleDownloadSvg_one_notice
        (P : Platform) (w : World) (node : Node) (card : CardData) :
  cardRef (app w) = Some node -> cardData (app w) = Some card ->
  fst (handleDownloadSvg P w) = inr tt
  /\ app (snd (handleDownloadSvg P w)) = app w
  /\ notices (trace (snd (handleDownloadSvg P w)))
     = (notices (trace w)
          ++ [match fst (generateImage P node downloadSvgOptions svg w) with
              | inr dataUrl =>
                  EvDownload
                    ("smart-card-" ++ domain card ++ "-" ++ Theme_value (theme (app w))
                       ++ ".svg")
                    dataUrl
              | inl err => EvAlert (downloadErrorAlert err)
              end])%list.
Proof.
  intros Href Hcard.
  remember (handleDownloadSvg P w) as R eqn:ER.
  cbv beta iota delta [handleDownloadSvg bind getApp] in ER.
  rewrite Href, Hcard in ER. unfold try_catch in ER.
  destruct (generateImage_silent P node downloadSvgOptions svg w) as [Ha Hn].
  destruct (generateImage P node downloadSvgOptions svg w) as [[err|dataUrl] w1];
    cbn [fst snd] in *.
  - unfold handleDownloadError, call in ER. subst R. cbn [fst snd app trace].
    repeat split; [exact Ha|]. rewrite notices_app, Hn. reflexivity.
  - unfold triggerDownload, call in ER. rewrite Hcard in ER. subst R.
    cbn [fst snd app trace].
    repeat split; [exact Ha|]. rewrite notices_app, Hn. reflexivity.
Qed.

Lemma handleDownloadSvg_one_notice_witness :
  notices (trace (snd (handleDownloadSvg (Reference.offline 2) Reference.showing)))
  = [EvAlert (downloadErrorAlert (JsError "Failed to fetch font"))]
  /\ notices (trace (snd (handleDownloadSvg (Reference.offline 1) Reference.showing)))
     = [EvDownload "smart-card-example.com-light.svg"
          "data:image/svg+xml;charset=utf-8,CARD"].
Proof.
  split.
  - destruct (handleDownloadSvg_one_notice (Reference.offline 2) Reference.showing
                CardNode Reference.exampleCard) as [_ [_ H]].
    + reflexivity.
    + reflexivity.
    + rewrite H. reflexivity.
  - destruct (handleDownloadSvg_one_notice (Reference.offline 1) Reference.showing
                CardNode Reference.exampleCard) as [_ [_ H]].
    + reflexivity.
    + reflexivity.
    + rewrite H. reflexivity.
Defined.

(** X13: with a card mounted, a PNG download makes the pre-warm capture,
    whose outcome changes nothing, and then behaves like the SVG
    download: it never throws, never changes the React state, and ends
    in exactly one download of [smart-card-<domain>-<theme>.png] or one
    error alert, as the real capture succeeded or failed twice. *)
Theorem handleDownloadPng_one_notice
        (P : Platform) (w : World) (node : Node) (card : CardData) :
  cardRef (app w) = Some node -> cardData (app w) = Some card ->
  fst (handleDownloadPng P w) = inr tt
  /\ app (snd (handleDownloadPng P w)) = app w
  /\ notices (trace (snd (handleDownloadPng P w)))
     = (notices (trace w)
          ++ [match fst (generateImage P node downloadPngOptions png
                           {| app := app w;
                              trace := (trace w ++ [EvRender png prewarmOptions])%list |})
              with
              | inr dataUrl =>
                  EvDownload
                    ("smart-card-" ++ domain card ++ "-" ++ Theme_value (theme (app w))
                       ++ ".png")
                    dataUrl
              | inl err => EvAlert (downloadErrorAlert err)
              end])%list.
Proof.
  intros Href Hcard.
  remember (handleDownloadPng P w) as R eqn:ER.
  cbv beta iota delta [handleDownloadPng bind getApp] in ER.
  rewrite Href, Hcard in ER.
  cbv beta iota delta [try_catch ret render call] in ER. cbn [app trace] in ER.
  destruct (generateImage_silent P node downloadPngOptions png
              {| app := app w; trace := (trace w ++ [EvRender png prewarmOptions])%list |})
    as [Ha Hn].
  cbn [app trace] in Ha, Hn. rewrite notices_app in Hn. simpl in Hn.
  rewrite app_nil_r in Hn.
  destruct (htmlToImage P (trace w) png prewarmOptions) as [e0|d0];
    cbv beta iota in ER;
    destruct (generateImage P node downloadPngOptions png _) as [[err|dataUrl] w1];
    cbn [fst snd] in *;
    unfold handleDownloadError, triggerDownload, call in ER; rewrite ?Hcard in ER;
    subst R; cbn [fst snd app trace];
    (repeat split; [exact Ha|]); rewrite notices_app, Hn; reflexivity.
Qed.

Lemma handleDownloadPng_one_notice_witness :
  notices (trace (snd (handleDownloadPng (Reference.offline 1) Reference.showing)))
  = [EvDownload "smart-card-example.com-light.png" "data:image/png;base64,CARD"]
  /\ notices (trace (snd (handleDownloadPng (Reference.offline 3) Reference.showing)))
     = [EvAlert (downloadErrorAlert (JsError "Failed to fetch font"))].
Proof.
  split.
  - destruct (handleDownloadPng_one_notice (Reference.offline 1) Reference.showing
                CardNode Reference.exampleCard) as [_ [_ H]].
    + reflexivity.
    + reflexivity.
    + rewrite H. reflexivity.
  - destruct (handleDownloadPng_one_notice (Reference.offline 3) Reference.showing
                CardNode Reference.exampleCard) as [_ [_ H]].
    + reflexivity.
    + reflexivity.
    + rewrite H. reflexivity.
Defined.

(** X14: with a card mounted, the preview handler never throws; when the
    capture succeeds it stores the captured image and opens the dialog,
    changing nothing else and alerting nothing; when both attempts throw
    it leaves the React state as it was (the dialog stays closed, the
    previous image is kept) and shows the alert
    [Could not generate social preview.] *)
Theorem handleSocialPreview_outcome
        (P : Platform) (w : World) (node : Node) (card : CardData) :
  cardRef (app w) = Some node -> cardData (app w) = Some card ->
  fst (handleSocialPreview P w) = inr tt
  /\ match fst (generateImage P node socialPreviewOptions png w) with
     | inr dataUrl =>
         app (snd (handleSocialPreview P w)) = previewing (app w) dataUrl
         /\ notices (trace (snd (handleSocialPreview P w))) = notices (trace w)
     | inl _ =>
         app (snd (handleSocialPreview P w)) = app w
         /\ notices (trace (snd (handleSocialPreview P w)))
            = (notices (trace w)
                 ++ [EvAlert "Could not generate social preview."])%list
     end.
Proof.
  intros Href Hcard.
  remember (handleSocialPreview P w) as R eqn:ER.
  cbv beta iota delta [handleSocialPreview bind getApp] in ER.
  rewrite Href, Hcard in ER. unfold try_catch in ER.
  destruct (generateImage_silent P node socialPreviewOptions png w) as [Ha Hn].
  destruct (generateImage P node socialPreviewOptions png w) as [[err|dataUrl] w1];
    cbn [fst snd] in *.
  - unfold call in ER. subst R. cbn [fst snd app trace].
    repeat split; [exact Ha|]. rewrite notices_app, Hn. reflexivity.
  - unfold setSocialImage, setShowSocialPreview, modifyApp in ER. subst R.
    cbn [fst snd app trace]. repeat split; [|exact Hn].
    unfold previewing. cbn. now rewrite Ha.
Qed.

Lemma handleSocialPreview_outcome_witness :
  app (snd (handleSocialPreview (Reference.offline 1) Reference.showing))
  = previewing (app Reference.showing) "data:image/png;base64,CARD".
Proof.
  destruct (handleSocialPreview_outcome (Reference.offline 1) Reference.showing
              CardNode Reference.exampleCard) as [_ H].
  - reflexivity.
  - reflexivity.
  - cbn in H. exact (proj1 H).
Defined.

(* --------------------------------------------------------------------- *)
(** ** The states the application reaches *)
(* --------------------------------------------------------------------- *)

Section Reachability.

Variable P : Platform.

Lemma keepsApp_getApp_bind {A} (k : AppState -> M A) :
  (forall a, keepsApp (k a)) -> keepsApp (bind getApp k).
Proof. intros Hk w. unfold bind, getApp. apply Hk. Qed.

Lemma keepsApp_generateImage (node : Node) (options : Options) (format : Format) :
  keepsApp (generateImage P node options format).
Proof. intros w. apply generateImage_silent. Qed.

Lemma keepsApp_triggerDownload (a : AppState) (dataUrl extension : string) :
  keepsApp (triggerDownload a dataUrl extension).
Proof.
  unfold triggerDownload. destruct (cardData a); [apply keepsApp_call | apply keepsApp_ret].
Qed.

Lemma keepsApp_handleDownloadPng : keepsApp (handleDownloadPng P).
Proof.
  unfold handleDownloadPng. apply keepsApp_getApp_bind. intros a.
  destruct (cardRef a); [|apply keepsApp_ret].
  destruct (cardData a); [|apply keepsApp_ret].
  apply keepsApp_try_catch; [|intros e; apply keepsApp_call].
  apply keepsApp_bind.
  - apply keepsApp_try_catch; [|intros e; apply keepsApp_ret].
    apply keepsApp_bind; [apply keepsApp_call | intros; apply keepsApp_ret].
  - intros _. apply keepsApp_bind; [apply keepsApp_generateImage|].
    intros dataUrl. apply keepsApp_triggerDownload.
Qed.

Lemma keepsApp_handleDownloadSvg : keepsApp (handleDownloadSvg P).
Proof.
  unfold handleDownloadSvg. apply keepsApp_getApp_bind. intros a.
  destruct (cardRef a); [|apply keepsApp_ret].
  destruct (cardData a); [|apply keepsApp_ret].
  apply keepsApp_try_catch; [|intros e; apply keepsApp_call].
  apply keepsApp_bind; [apply keepsApp_generateImage|].
  intros dataUrl. apply keepsApp_triggerDownload.
Qed.

(** The preview handler changes the preview image and the dialog flag
    only. *)
Lemma handleSocialPreview_app (w : World) :
  app (snd (handleSocialPreview P w)) = app w
  \/ exists dataUrl, app (snd (handleSocialPreview P w)) = previewing (app w) dataUrl.
Proof.
  cbv beta iota delta [handleSocialPreview bind getApp].
  destruct (cardRef (app w)) as [node|]; [|now left].
  destruct (cardData (app w)) as [card|]; [|now left].
  unfold try_catch.
  destruct (generateImage_silent P node socialPreviewOptions png w) as [Ha _].
  destruct (generateImage P node socialPreviewOptions png w) as [[err|dataUrl] w1];
    cbn [fst snd] in *.
  - left. exact Ha.
  - right. exists dataUrl. unfold previewing. cbn. now rewrite Ha.
Qed.

(** The invariant holds at the first render and every handler keeps it. *)
Lemma reachable_appInvariant (w : World) :
  reachable P w -> appInvariant P (app w).
Proof.
  induction 1 as [|w act Hreach IH Hoff].
  - unfold appInvariant. cbn. repeat split.
    + now left.
    + discriminate.
    + discriminate.
  - destruct IH as [Hg [Hv [Hc Hcard]]].
    destruct act; cbn [perform offered] in *.
    + unfold appInvariant. cbn. now repeat split.
    + unfold appInvariant. cbn. now repeat split.
    + unfold appInvariant. cbn. now repeat split.
    + unfold appInvariant. cbn. now repeat split.
    + destruct (handleGenerate_three_ways P w)
        as [[_ E] | [[_ [w' [E Ha]]] | [_ [card [w' [E [Ha Hb]]]]]]];
        rewrite E; cbn [snd]; [now repeat split | |]; rewrite Ha.
      * unfold appInvariant. cbn. repeat split; try assumption. discriminate.
      * unfold appInvariant. cbn. repeat split; try assumption.
        -- discriminate.
        -- intros card' [= <-]. now exists (app w).
    + rewrite keepsApp_handleDownloadPng. now repeat split.
    + rewrite keepsApp_handleDownloadSvg. now repeat split.
    + destruct (handleSocialPreview_app w) as [-> | [d ->]]; now repeat split.
    + unfold appInvariant. cbn. now repeat split.
    + unfold appInvariant. cbn. now repeat split.
Qed.

End Reachability.



(** X16: every card the application ever shows is consistent: its URL
    carries an [http(s)] scheme and parses, its domain is the display
    domain of the host name of that URL, its favicon is the empty string
    or begins with [data:image], its primary screenshot reference is the
    proxied microlink URL of that URL for one of the three viewport
    profiles, and its backup reference is present, not empty and
    different from the primary. *)
Theorem reachable_card_consistent (P : Platform) (w : World) (card : CardData) :
  reachable P w ->
  cardData (app w) = Some card ->
  hasHttpScheme (url card) = true
  /\ (exists hostname,
         URL_hostname P (url card) = inr hostname
         /\ domain card = displayDomain hostname)
  /\ absentOrImage (faviconUrl card)
  /\ (exists vp th t1,
         In vp VIEWPORT_OPTIONS
         /\ screenshotUrl card = proxiedUrlAt t1 (microlinkUrl (url card) vp th))
  /\ (exists b,
         backupScreenshotUrl card = Some b /\ b <> "" /\ b <> screenshotUrl card).
Proof.
  intros H Hcard.
  destruct (reachable_appInvariant P w H) as [_ [_ [_ Hc]]].
  destruct (Hc card Hcard)
    as [a0 [Hv [hostname [metadata [qr [favicon [t1 [t2 [ts [Hh [Hm [Hf ->]]]]]]]]]]]].
  cbn [url domain faviconUrl screenshotUrl assembledCard].
  split; [apply processUrl_hasHttpScheme|].
  split; [now exists hostname|]. split; [exact Hf|]. split.
  - now exists (selectedViewport a0), (websiteTheme a0), t1.
  - apply (builtByAssembler_sources
             (assembledCard a0 (processUrl (urlInput a0)) hostname metadata qr favicon
                t1 t2 ts)).
    apply assembledCard_built.
Qed.

Lemma reachable_card_consistent_witness :
  absentOrImage
    (faviconUrl
       (assembledCard (app (Reference.typed "example.com")) "https://example.com"
          "example.com"
          (metadataObject "example.com" "Link to https://example.com")
          "data:image/png;base64,QR" "" 1700000000000 1700000000000 "Nov 14, 2023")).
Proof.
  refine (proj1 (proj2 (proj2
    (reachable_card_consistent (Reference.offline 0)
       (snd (perform (Reference.offline 0) Generate
               (snd (perform (Reference.offline 0) (TypeUrl "example.com")
                       {| app := initialApp; trace := [] |}))))
       _ _ _)))).
  - apply reachable_perform; [|exact I].
    apply reachable_perform; [|exact I].
    apply reachable_start.
  - reflexivity.
Defined.

(* --------------------------------------------------------------------- *)
(** ** The card component after a record arrives *)
(* --------------------------------------------------------------------- *)

Section CardRuns.

Variable data : CardData.

(** What every image event keeps: the favicon flag stays, the active
    source is a reference of the record, and the failure flag comes with
    the end of loading. *)
Lemma handle_keeps (ev : SmartCard.ImgEvent) (st : SmartCard.State) :
  (SmartCard.currentScreenshotUrl st = screenshotUrl data
   \/ backupScreenshotUrl data = Some (SmartCard.currentScreenshotUrl st)) ->
  (SmartCard.imageError st = true -> SmartCard.imageLoading st = false) ->
  SmartCard.faviconError (SmartCard.handle data ev st) = SmartCard.faviconError st
  /\ (SmartCard.currentScreenshotUrl (SmartCard.handle data ev st) = screenshotUrl data
      \/ backupScreenshotUrl data
         = Some (SmartCard.currentScreenshotUrl (SmartCard.handle data ev st)))
  /\ (SmartCard.imageError (SmartCard.handle data ev st) = true ->
      SmartCard.imageLoading (SmartCard.handle data ev st) = false).
Proof.
  intros Hsrc Hflag. destruct ev; cbn [SmartCard.handle].
  - unfold SmartCard.handleLoad. cbn. now repeat split.
  - unfold SmartCard.handleScreenshotError.
    destruct (backupScreenshotUrl data) as [b|] eqn:Eb; [|cbn; now repeat split].
    destruct (JsString.truthy b && _)%bool; cbn; repeat split; auto.
Qed.

Lemma run_keeps (evs : list SmartCard.ImgEvent) :
  forall st st',
    SmartCard.run data st evs st' ->
    (SmartCard.currentScreenshotUrl st = screenshotUrl data
     \/ backupScreenshotUrl data = Some (SmartCard.currentScreenshotUrl st)) ->
    (SmartCard.imageError st = true -> SmartCard.imageLoading st = false) ->
    SmartCard.faviconError st' = SmartCard.faviconError st
    /\ (SmartCard.currentScreenshotUrl st' = screenshotUrl data
        \/ backupScreenshotUrl data = Some (SmartCard.currentScreenshotUrl st'))
    /\ (SmartCard.imageError st' = true -> SmartCard.imageLoading st' = false).
Proof.
  induction evs as [|ev evs IH]; intros st st' Hrun Hsrc Hflag.
  - inversion Hrun; subst. now repeat split.
  - inversion Hrun as [|? ? ? ? ? Hstep Hrest]; subst.
    inversion Hstep; subst.
    destruct (handle_keeps ev st Hsrc Hflag) as [Hf [Hs Hl]].
    destruct (IH _ _ Hrest Hs Hl) as [Hf' [Hs' Hl']].
    repeat split; [congruence | exact Hs' | exact Hl'].
Qed.

End CardRuns.

(** X17: however the screenshot image behaves after a record arrived, the
    source the component shows is the primary or the backup reference of
    that record, image events never touch the favicon flag, and once the
    failure flag is set the component has stopped loading, shows the
    [Preview Unavailable] panel without shimmer, and reacts to no further
    image event. *)
Theorem smartCard_run_invariant
        (data : CardData) (st0 st : SmartCard.State) (evs : list SmartCard.ImgEvent) :
  SmartCard.run data (SmartCard.onDataChange (Some data) st0) evs st ->
  (SmartCard.currentScreenshotUrl st = screenshotUrl data
   \/ backupScreenshotUrl data = Some (SmartCard.currentScreenshotUrl st))
  /\ SmartCard.faviconError st = false
  /\ (SmartCard.imageError st = true ->
      SmartCardView.unavailableShown st = true
      /\ SmartCardView.shimmerShown st = false
      /\ forall ev st', ~ SmartCard.step data st ev st').
Proof.
  intros Hrun.
  destruct (run_keeps data evs _ _ Hrun) as [Hf [Hs Hl]].
  - now left.
  - cbn. discriminate.
  - split; [exact Hs|]. split; [exact Hf|].
    intros He. specialize (Hl He).
    unfold SmartCardView.unavailableShown, SmartCardView.shimmerShown,
      SmartCard.imgRendered.
    rewrite He, Hl. repeat split.
    intros ev st' Hstep. inversion Hstep as [? ? Hr]; subst.
    unfold SmartCard.imgRendered in Hr. rewrite He in Hr. discriminate Hr.
Qed.

Lemma smartCard_run_invariant_witness :
  SmartCard.currentScreenshotUrl
    (SmartCard.handle Reference.exampleCard SmartCard.Error
       (SmartCard.onDataChange (Some Reference.exampleCard) SmartCard.initial))
  = screenshotUrl Reference.exampleCard
  \/ backupScreenshotUrl Reference.exampleCard
     = Some (SmartCard.currentScreenshotUrl
               (SmartCard.handle Reference.exampleCard SmartCard.Error
                  (SmartCard.onDataChange (Some Reference.exampleCard)
                     SmartCard.initial))).
Proof.
  apply (smartCard_run_invariant Reference.exampleCard SmartCard.initial _
           [SmartCard.Error]).
  eapply SmartCard.run_cons; [|apply SmartCard.run_nil].
  apply SmartCard.step_event. reflexivity.
Defined.

(** X18: a record whose primary screenshot reference is empty never gets
    its image element: no image event can occur, so the backup is never
    tried and the component stays as the record left it, the shimmer
    shown over the [Preview Unavailable] panel. *)
Theorem smartCard_empty_primary_is_stuck
        (data : CardData) (st0 st : SmartCard.State) (evs : list SmartCard.ImgEvent) :
  screenshotUrl data = "" ->
  SmartCard.run data (SmartCard.onDataChange (Some data) st0) evs st ->
  evs = []
  /\ st = SmartCard.onDataChange (Some data) st0
  /\ SmartCardView.shimmerShown st = true
  /\ SmartCardView.unavailableShown st = true.
Proof.
  intros Hempty Hrun.
  inversion Hrun as [|? ? ? ? ? Hstep Hrest]; subst.
  - repeat split; unfold SmartCardView.unavailableShown, SmartCard.imgRendered;
      cbn; now rewrite Hempty.
  - inversion Hstep as [? ? Hr]; subst.
    unfold SmartCard.imgRendered in Hr. cbn in Hr. rewrite Hempty in Hr.
    discriminate Hr.
Qed.

Lemma smartCard_empty_primary_is_stuck_witness :
  SmartCardView.shimmerShown
    (SmartCard.onDataChange
       (Some {| url := "https://example.com"; domain := "example.com";
                title := None; description := None;
                screenshotUrl := "";
                backupScreenshotUrl := Some "https://s0.wp.com/mshots/v1/x";
                faviconUrl := ""; qrCodeDataUrl := ""; timestamp := "" |})
       SmartCard.initial)
  = true.
Proof.
  refine (proj1 (proj2 (proj2
    (smartCard_empty_primary_is_stuck
       {| url := "https://example.com"; domain := "example.com";
          title := None; description := None;
          screenshotUrl := "";
          backupScreenshotUrl := Some "https://s0.wp.com/mshots/v1/x";
          faviconUrl := ""; qrCodeDataUrl := ""; timestamp := "" |}
       SmartCard.initial _ [] eq_refl _)))).
  apply SmartCard.run_nil.
Defined.

Section FaviconView.


End FaviconView.



(* --------------------------------------------------------------------- *)
(** ** Display domain, exactly *)
(* --------------------------------------------------------------------- *)

Section ReplaceFacts.

Lemma length_append (a b : string) :
  String.length (a ++ b) = String.length a + String.length b.
Proof. induction a as [|c a IH]; simpl; [reflexivity | now rewrite IH]. Qed.

Lemma prefix_split (p s : string) :
  String.prefix p s = true -> s = p ++ JsString.drop (String.length p) s.
Proof.
  revert s. induction p as [|c p IH]; intros s H.
  - reflexivity.
  - destruct s as [|d s]; [discriminate H|].
    cbn [String.prefix] in H. destruct (ascii_dec c d) as [->|]; [|discriminate H].
    cbn. f_equal. now apply IH.
Qed.

(** [replace] removes the first occurrence of a pattern that occurs. *)
Lemma replace_first_occurrence (pat s : string) :
  JsString.includes s pat = true ->
  exists before after,
    s = before ++ pat ++ after
    /\ JsString.replace s pat "" = before ++ after
    /\ forall k, k < String.length before ->
         String.prefix pat (JsString.drop k before ++ pat ++ after) = false.
Proof.
  induction s as [|c s IH]; intros H.
  - cbn [JsString.includes] in H. rewrite orb_false_r in H.
    exists "", "". cbn [JsString.replace]. rewrite H.
    pose proof (prefix_split pat "" H) as E. destruct pat; [|discriminate E].
    repeat split. intros k Hk. inversion Hk.
  - cbn [JsString.includes] in H. cbn [JsString.replace].
    destruct (String.prefix pat (String c s)) eqn:Ep.
    + exists "", (JsString.drop (String.length pat) (String c s)).
      split; [now apply prefix_split|]. split; [reflexivity|].
      intros k Hk. inversion Hk.
    + cbn [orb] in H. destruct (IH H) as [before [after [Es [Er Hk]]]].
      exists (String c before), after.
      split; [cbn; now rewrite <- Es|]. split; [cbn; now rewrite Er|].
      intros [|k] Hlt.
      * cbn [JsString.drop String.append]. now rewrite <- Es.
      * cbn [JsString.drop]. apply Hk. cbn in Hlt. lia.
Qed.

End ReplaceFacts.

(** X20: the display domain is the host name with its first occurrence of
    [www.] cut out, wherever that occurrence is: a host name without
    [www.] is kept as it is; otherwise the host name splits as
    [before ++ "www." ++ after], no [www.] starts inside [before], and
    the display domain is [before ++ after], four characters shorter. *)
Theorem displayDomain_cuts_first_www (hostname : string) :
  (JsString.includes hostname "www." = false -> displayDomain hostname = hostname)
  /\ (JsString.includes hostname "www." = true ->
      exists before after,
        hostname = before ++ "www." ++ after
        /\ displayDomain hostname = before ++ after
        /\ (forall k, k < String.length before ->
              String.prefix "www." (JsString.drop k before ++ "www." ++ after) = false)
        /\ String.length (displayDomain hostname) + 4 = String.length hostname).
Proof.
  split; [apply displayDomain_without_www|].
  intros H. destruct (replace_first_occurrence "www." hostname H)
    as [before [after [Es [Er Hk]]]].
  exists before, after. unfold displayDomain.
  split; [exact Es|]. split; [exact Er|]. split; [exact Hk|].
  rewrite Er. rewrite Es at 1.
  rewrite !length_append. simpl. lia.
Qed.

(* --------------------------------------------------------------------- *)
(** ** The captures of the export handlers *)
(* --------------------------------------------------------------------- *)

Section ExportCaptures.

Variable P : Platform.





End ExportCaptures.


(** X22: the screenshots of a completed generation are requested for the
    viewport profile and the website colour scheme that were selected
    when the generation started: the primary reference is the proxied
    microlink URL of the processed input with that viewport's width and
    height and that colour scheme, the backup reference the proxied
    mShots URL with the same width and height. *)
Theorem handleGenerate_screenshots_follow_selection (P : Platform) (w : World) :
  JsString.trim (urlInput (app w)) <> "" ->
  step (status (app (snd (handleGenerate P w)))) = completed ->
  exists card t1 t2,
    cardData (app (snd (handleGenerate P w))) = Some card
    /\ screenshotUrl card
       = proxiedUrlAt t1
           (microlinkUrl (processUrl (urlInput (app w)))
              (selectedViewport (app w)) (websiteTheme (app w)))
    /\ backupScreenshotUrl card
       = Some (proxiedUrlAt t2
                 (mshotsUrl (processUrl (urlInput (app w))) (selectedViewport (app w))))
    /\ selectedViewport (app (snd (handleGenerate P w))) = selectedViewport (app w)
    /\ websiteTheme (app (snd (handleGenerate P w))) = websiteTheme (app w).
Proof.
  intros Hn Hc.
  destruct (handleGenerate_three_ways P w)
    as [[Hb _] | [[_ [w' [E Ha]]] | [_ [card [w' [E [Ha Hcard]]]]]]].
  - congruence.
  - rewrite E in Hc. cbn [snd] in Hc. rewrite Ha in Hc. discriminate Hc.
  - rewrite E. cbn [snd]. rewrite Ha.
    destruct Hcard as [hostname [metadata [qr [favicon [t1 [t2 [ts [Hh [Hv [Hf ->]]]]]]]]]].
    do 3 eexists. repeat split.
Qed.

Lemma handleGenerate_screenshots_follow_selection_witness :
  option_map backupScreenshotUrl
    (cardData (app (snd (handleGenerate (Reference.offline 0)
                           (Reference.typed "example.com")))))
  = Some (Some (proxiedUrlAt 1700000000000
                  (mshotsUrl "https://example.com" (selectedViewport initialApp)))).
Proof.
  destruct (handleGenerate_screenshots_follow_selection (Reference.offline 0)
              (Reference.typed "example.com")) as [card [t1 [t2 [Hc _]]]].
  - discriminate.
  - reflexivity.
  - reflexivity.
Defined.

(* --------------------------------------------------------------------- *)
(** ** Normalizing twice *)
(* --------------------------------------------------------------------- *)

Section TrimFacts.

Lemma rev_append (a b : string) :
  JsString.rev (a ++ b) = JsString.rev b ++ JsString.rev a.
Proof.
  induction a as [|c a IH]; simpl.
  - now rewrite append_nil_r.
  - now rewrite IH, append_assoc.
Qed.

Lemma rev_involutive (s : string) : JsString.rev (JsString.rev s) = s.
Proof.
  induction s as [|c s IH]; [reflexivity|].
  simpl. rewrite rev_append. simpl. now rewrite IH.
Qed.

(** What [trimStart] returns does not begin with white space. *)
Lemma trimStart_clean_n (n : nat) :
  forall s, String.length s <= n -> startsWithSpace (JsString.trimStart s) = false.
Proof.
  induction n as [|n IH]; intros s Hlen.
  - destruct s; [reflexivity | simpl in Hlen; lia].
  - destruct s as [|c1 r1]; [reflexivity|].
    cbn [JsString.trimStart]. simpl in Hlen.
    destruct (JsString.isAsciiSpace c1) eqn:E1; [apply IH; lia|].
    destruct r1 as [|c2 r2]; [cbn [startsWithSpace]; now rewrite E1|].
    simpl in Hlen.
    destruct (JsString.isSpace2 c1 c2) eqn:E2; [apply IH; lia|].
    destruct r2 as [|c3 r3]; [cbn [startsWithSpace]; now rewrite E1, E2|].
    simpl in Hlen.
    destruct (JsString.isSpace3 c1 c2 c3) eqn:E3; [apply IH; lia|].
    cbn [startsWithSpace]. now rewrite E1, E2, E3.
Qed.

Lemma trimStart_rev_clean_n (n : nat) :
  forall s, String.length s <= n ->
            startsWithSpace_rev (JsString.trimStart_rev s) = false.
Proof.
  induction n as [|n IH]; intros s Hlen.
  - destruct s; [reflexivity | simpl in Hlen; lia].
  - destruct s as [|c1 r1]; [reflexivity|].
    cbn [JsString.trimStart_rev]. simpl in Hlen.
    destruct (JsString.isAsciiSpace c1) eqn:E1; [apply IH; lia|].
    destruct r1 as [|c2 r2]; [cbn [startsWithSpace_rev]; now rewrite E1|].
    simpl in Hlen.
    destruct (JsString.isSpace2 c2 c1) eqn:E2; [apply IH; lia|].
    destruct r2 as [|c3 r3]; [cbn [startsWithSpace_rev]; now rewrite E1, E2|].
    simpl in Hlen.
    destruct (JsString.isSpace3 c3 c2 c1) eqn:E3; [apply IH; lia|].
    cbn [startsWithSpace_rev]. now rewrite E1, E2, E3.
Qed.

(** A string that does not begin with white space is kept. *)
Lemma trimStart_id (s : string) :
  startsWithSpace s = false -> JsString.trimStart s = s.
Proof.
  destruct s as [|c1 r1]; [reflexivity|].
  cbn [startsWithSpace JsString.trimStart]. intros H.
  apply orb_false_elim in H. destruct H as [H1 H]. rewrite H1.
  destruct r1 as [|c2 r2]; [reflexivity|].
  apply orb_false_elim in H. destruct H as [H2 H]. rewrite H2.
  destruct r2 as [|c3 r3]; [reflexivity|].
  now rewrite H.
Qed.

Lemma trimStart_rev_id (s : string) :
  startsWithSpace_rev s = false -> JsString.trimStart_rev s = s.
Proof.
  destruct s as [|c1 r1]; [reflexivity|].
  cbn [startsWithSpace_rev JsString.trimStart_rev]. intros H.
  apply orb_false_elim in H. destruct H as [H1 H]. rewrite H1.
  destruct r1 as [|c2 r2]; [reflexivity|].
  apply orb_false_elim in H. destruct H as [H2 H]. rewrite H2.
  destruct r2 as [|c3 r3]; [reflexivity|].
  now rewrite H.
Qed.

(** [trimStart_rev] only drops from the front. *)
Lemma trimStart_rev_suffix_n (n : nat) :
  forall s, String.length s <= n -> exists d, s = d ++ JsString.trimStart_rev s.
Proof.
  induction n as [|n IH]; intros s Hlen.
  - destruct s; [now exists "" | simpl in Hlen; lia].
  - destruct s as [|c1 r1]; [now exists ""|].
    cbn [JsString.trimStart_rev]. simpl in Hlen.
    destruct (JsString.isAsciiSpace c1).
    { destruct (IH r1) as [d Hd]; [lia|].
      exists (String c1 d). cbn. now rewrite <- Hd. }
    destruct r1 as [|c2 r2]; [now exists ""|]. simpl in Hlen.
    destruct (JsString.isSpace2 c2 c1).
    { destruct (IH r2) as [d Hd]; [lia|].
      exists (String c1 (String c2 d)). cbn. now rewrite <- Hd. }
    destruct r2 as [|c3 r3]; [now exists ""|]. simpl in Hlen.
    destruct (JsString.isSpace3 c3 c2 c1).
    { destruct (IH r3) as [d Hd]; [lia|].
      exists (String c1 (String c2 (String c3 d))). cbn. now rewrite <- Hd. }
    now exists "".
Qed.

(** A prefix of a string without leading white space has none either. *)
Lemma startsWithSpace_prefix (p q : string) :
  startsWithSpace (p ++ q) = false -> startsWithSpace p = false.
Proof.
  destruct p as [|c1 [|c2 [|c3 r3]]]; cbn [String.append startsWithSpace];
    intros H; try reflexivity.
  - apply orb_false_elim in H. destruct H as [H1 _]. now rewrite H1.
  - apply orb_false_elim in H. destruct H as [H1 H].
    rewrite H1. destruct q; cbn in *.
    + apply orb_false_elim in H. destruct H as [H2 _]. now rewrite H2.
    + apply orb_false_elim in H. destruct H as [H2 _]. now rewrite H2.
  - exact H.
Qed.

(** A trimmed string has clean ends. *)
Lemma trim_clean (s : string) :
  startsWithSpace (JsString.trim s) = false
  /\ startsWithSpace_rev (JsString.rev (JsString.trim s)) = false.
Proof.
  unfold JsString.trim. split.
  - destruct (trimStart_rev_suffix_n _ (JsString.rev (JsString.trimStart s)) (le_n _))
      as [d Hd].
    assert (E : JsString.trimStart s
                = JsString.rev (JsString.trimStart_rev (JsString.rev (JsString.trimStart s)))
                    ++ JsString.rev d).
    { rewrite <- rev_append, <- Hd. now rewrite rev_involutive. }
    apply (startsWithSpace_prefix _ (JsString.rev d)). rewrite <- E.
    apply (trimStart_clean_n _ s (le_n _)).
  - rewrite rev_involutive. apply (trimStart_rev_clean_n _ _ (le_n _)).
Qed.

(** A string with clean ends is its own trimming. *)
Lemma trim_id (s : string) :
  startsWithSpace s = false -> startsWithSpace_rev (JsString.rev s) = false ->
  JsString.trim s = s.
Proof.
  intros H1 H2. unfold JsString.trim.
  rewrite (trimStart_id s H1), (trimStart_rev_id _ H2). apply rev_involutive.
Qed.

Lemma trim_idempotent (s : string) : JsString.trim (JsString.trim s) = JsString.trim s.
Proof. destruct (trim_clean s) as [H1 H2]. now apply trim_id. Qed.

(** The scheme in front of a string with clean ends keeps the ends
    clean. *)
Lemma https_clean (t : string) :
  startsWithSpace_rev (JsString.rev t) = false ->
  startsWithSpace ("https://" ++ t) = false
  /\ startsWithSpace_rev (JsString.rev ("https://" ++ t)) = false.
Proof.
  intros H. split; [reflexivity|].
  rewrite rev_append.
  change (JsString.rev "https://") with "//:sptth".
  destruct (JsString.rev t) as [|c1 [|c2 [|c3 r3]]];
    cbn [String.append startsWithSpace_rev] in *.
  - reflexivity.
  - apply orb_false_elim in H. destruct H as [H1 _]. rewrite H1. reflexivity.
  - apply orb_false_elim in H. destruct H as [H1 H].
    apply orb_false_elim in H. destruct H as [H2 _]. rewrite H1, H2. reflexivity.
  - exact H.
Qed.

End TrimFacts.

(** X23: normalizing is idempotent: the processed URL, typed in again
    (with or without white space around it), is processed to itself. In
    particular the URL of a published card regenerates under the same
    URL. *)
Theorem processUrl_idempotent (urlInput : string) :
  processUrl (processUrl urlInput) = processUrl urlInput
  /\ JsString.trim (processUrl urlInput) = processUrl urlInput.
Proof.
  assert (T : JsString.trim (processUrl urlInput) = processUrl urlInput).
  { unfold processUrl. destruct (trim_clean urlInput) as [H1 H2].
    destruct (hasHttpScheme (JsString.trim urlInput)); cbn [negb].
    - apply trim_idempotent.
    - destruct (https_clean _ H2) as [H3 H4]. now apply trim_id. }
  split; [|exact T].
  unfold processUrl at 1. rewrite T.
  now rewrite processUrl_hasHttpScheme.
Qed.
